(** * Telesales WhatsApp campaign generator: the selection pipeline of app.py

    A shallow embedding of [load_history_df] and [compute_outputs] and the
    helpers they call, followed by the properties of the filter pipeline,
    the ledger reconciler, the audit projection and the run counters.

    Conventions of the embedding.
    - A Python [str] is a [string]; a character is its code point, so the
      text the model covers is the one whose code points are below 256.
      The character classes of [str.isdigit], [str.isspace] and
      [str.lower] are written out for that range.
    - A cell of a frame read with [dtype=str] is an [option string]:
      [None] is the missing value (NaN).
    - A column is a list; a frame is a set of columns of one length, read
      by position.  A boolean mask selects positions.
    - A Python [set] is a [gset].
    - The clock is read once by the caller and passed in. *)

From Stdlib Require Import ZArith Lia Ascii String DecimalString DecimalNat.
From stdpp Require Import base decidable option list gmap strings.

Open Scope string_scope.

(** ** Text *)

Module Text.

Definition chars (s : string) : list ascii := list_ascii_of_string s.
Definition text (l : list ascii) : string := string_of_list_ascii l.

Definition code (c : ascii) : N := N_of_ascii c.

Definition between (lo hi : N) (c : ascii) : bool :=
  (lo <=? code c)%N && (code c <=? hi)%N.

(** [ch.isdigit()]: the decimal digits and the superscripts 2, 3, 1. *)
Definition isdigit (c : ascii) : bool :=
  between 48 57 c || between 178 179 c || between 185 185 c.

(** [ch.isspace()]: tab to carriage return, the four separators,
    space, next-line and the no-break space. *)
Definition isspace (c : ascii) : bool :=
  between 9 13 c || between 28 32 c || between 133 133 c
  || between 160 160 c.

(** [ch.lower()]: A-Z and the accented capitals, the multiplication
    sign excepted. *)
Definition lower_char (c : ascii) : ascii :=
  if between 65 90 c
     || (between 192 222 c && negb (between 215 215 c))
  then ascii_of_N (code c + 32) else c.

Fixpoint drop_while (p : ascii -> bool) (l : list ascii) : list ascii :=
  match l with
  | [] => []
  | c :: l' => if p c then drop_while p l' else l
  end.

Definition lstrip_by (p : ascii -> bool) (l : list ascii) : list ascii :=
  drop_while p l.

Definition rstrip_by (p : ascii -> bool) (l : list ascii) : list ascii :=
  rev (drop_while p (rev l)).

Definition strip_by (p : ascii -> bool) (s : string) : string :=
  text (rstrip_by p (lstrip_by p (chars s))).

(** [s.strip()] *)
Definition strip (s : string) : string := strip_by isspace s.

(** [s.strip(c)] for a one-character argument *)
Definition strip_char (c : ascii) (s : string) : string :=
  strip_by (Ascii.eqb c) s.

(** [s.lower()] *)
Definition lower (s : string) : string :=
  text (map lower_char (chars s)).

(** [s.startswith(p)] *)
Definition startswith (p s : string) : bool := String.prefix p s.

(** [s[-n:]] for a positive [n] *)
Definition last_n (n : nat) (s : string) : string :=
  text (drop (length (chars s) - n) (chars s)).

(** [s.split()]: the maximal runs of non-space characters. *)
Fixpoint split_go (cur : list ascii) (l : list ascii) : list string :=
  match l with
  | [] => match cur with [] => [] | _ => [text (rev cur)] end
  | c :: l' =>
      if isspace c
      then match cur with
           | [] => split_go [] l'
           | _ => text (rev cur) :: split_go [] l'
           end
      else split_go (c :: cur) l'
  end.

Definition split (s : string) : list string := split_go [] (chars s).

(** [sep.join(parts)] *)
Fixpoint join (sep : string) (parts : list string) : string :=
  match parts with
  | [] => ""
  | [p] => p
  | p :: rest => p ++ sep ++ join sep rest
  end.

(** [str(n)] for a natural number, and the ["%0kd"] padding. *)
Definition dec (n : nat) : string :=
  NilEmpty.string_of_uint (Nat.to_uint n).

Fixpoint zeros (k : nat) : string :=
  match k with O => "" | S k' => String "0" (zeros k') end.

Definition pad (k : nat) (n : nat) : string :=
  zeros (k - String.length (dec n)) ++ dec n.

(** Reading back a run of decimal digits. *)
Definition undec (s : string) : option nat :=
  Nat.of_uint <$> NilEmpty.uint_of_string s.

End Text.

Import Text.

(** ** Calendar dates *)

Record date := Date { year : nat; month : nat; day : nat }.

Global Instance date_eq_dec : EqDecision date.
Proof. solve_decision. Defined.

(** The order of [datetime.date]: year, then month, then day. *)
Definition date_ltb (a b : date) : bool :=
  ((year a <? year b)
   || ((year a =? year b)
       && ((month a <? month b)
           || ((month a =? month b) && (day a <? day b)))))%nat.

Definition date_lt (a b : date) : Prop := date_ltb a b = true.
Definition date_le (a b : date) : Prop := date_ltb b a = false.

Definition is_leap (y : nat) : bool :=
  (((y mod 4 =? 0) && negb (y mod 100 =? 0)) || (y mod 400 =? 0))%nat.

Definition days_in_month (y m : nat) : nat :=
  match m with
  | 2 => if is_leap y then 29 else 28
  | 4 | 6 | 9 | 11 => 30
  | _ => 31
  end.

Definition next_day (d : date) : date :=
  if (day d <? days_in_month (year d) (month d))%nat
  then Date (year d) (month d) (S (day d))
  else if (month d <? 12)%nat
       then Date (year d) (S (month d)) 1
       else Date (S (year d)) 1 1.

(** [d + timedelta(days=n)] *)
Definition add_days (n : nat) (d : date) : date := Nat.iter n next_day d.

(** [d.isoformat()], which is also [str(d)]. *)
Definition isoformat (d : date) : string :=
  pad 4 (year d) ++ "-" ++ pad 2 (month d) ++ "-" ++ pad 2 (day d).

(** The reading of the clock: [datetime.now(ZoneInfo(...))]. *)
Record datetime := DateTime {
  dt_date : date; hour : nat; minute : nat; second : nat }.

(** [now.strftime("%Y-%m-%d %H:%M:%S")] *)
Definition strftime_ts (now : datetime) : string :=
  isoformat (dt_date now) ++ " " ++ pad 2 (hour now) ++ ":"
  ++ pad 2 (minute now) ++ ":" ++ pad 2 (second now).

(** [now.strftime("%d-%m-%Y")] *)
Definition strftime_dmy (now : datetime) : string :=
  pad 2 (day (dt_date now)) ++ "-" ++ pad 2 (month (dt_date now)) ++ "-"
  ++ pad 4 (year (dt_date now)).

(** [now.strftime("%H%M")] *)
Definition strftime_hhmm (now : datetime) : string :=
  pad 2 (hour now) ++ pad 2 (minute now).

(** ** Cells, columns and masks *)

(** A cell of a frame read with [dtype=str]; [None] is NaN. *)
Definition cell : Type := option string.

(** [.astype(str)] on a cell *)
Definition astype_str (c : cell) : string :=
  match c with Some s => s | None => "nan" end.

(** [.fillna(v)] on a cell *)
Definition fillna (v : string) (c : cell) : cell :=
  match c with Some s => Some s | None => Some v end.

(** [col.isin(values)] *)
Definition isin `{Countable K} (col : list K) (values : gset K) : list bool :=
  map (fun x => bool_decide (x ∈ values)) col.

(** [col.eq(v)] on a column of strings *)
Definition col_eq (v : string) (col : list string) : list bool :=
  map (fun x => String.eqb x v) col.

(** [~m], [a & b], [a | b] on masks *)
Definition mnot (m : list bool) : list bool := map negb m.
Definition mand (a b : list bool) : list bool := zip_with andb a b.
Definition mor (a b : list bool) : list bool := zip_with orb a b.

(** [int(m.sum())] *)
Definition msum (m : list bool) : nat := length (List.filter id m).

(** [df.loc[m, col] = v]: the column after the assignment *)
Definition loc_assign {A} (m : list bool) (v : A) (col : list A) : list A :=
  zip_with (fun (b : bool) x => if b then v else x) m col.

(** The value of a column at a position *)
Definition iloc {A} (d : A) (col : list A) (i : nat) : A := nth i col d.

(** [df[m].index]: the positions a mask keeps, in order *)
Definition mask_index (m : list bool) : list nat :=
  List.filter (fun i => iloc false m i) (seq 0 (length m)).

(** [df.drop_duplicates(subset=..., keep="first")]: [key] reads the subset
    columns of a row, [seen] holds the keys met so far. *)
Fixpoint drop_duplicates_from {A K} `{EqDecision K}
    (key : A -> K) (seen : list K) (rows : list A) : list A :=
  match rows with
  | [] => []
  | r :: rows' =>
      if bool_decide (key r ∈ seen)
      then drop_duplicates_from key seen rows'
      else r :: drop_duplicates_from key (key r :: seen) rows'
  end.

Definition drop_duplicates {A K} `{EqDecision K}
    (key : A -> K) (rows : list A) : list A :=
  drop_duplicates_from key [] rows.

(** [range(a, b)] *)
Definition range (a b : Z) : list Z :=
  map (fun k => (a + Z.of_nat k)%Z) (seq 0 (Z.to_nat (b - a))).

(** [col.max()] of a non-empty column of integers *)
Definition col_max (first : Z) (rest : list Z) : Z :=
  fold_left Z.max rest first.

(** ** Constants of the module *)

Definition REQUIRED_GENESYS_COLUMNS : list string :=
  [ "inin-outbound-id"; "borrower_id"; "full_name"; "phone";
    "CallRecordLastResult-phone"; "CallRecordLastAgentWrapup-phone" ].

Definition ALLOWED_WRAPUPS : gset string :=
  {[ "call back"; "reject the call"; "i dont need money";
     "i don't need money" ]}.

Definition HISTORY_COLUMNS : list string :=
  [ "id"; "inin_outbound_id"; "borrower_id"; "selected_at";
    "allowed_again_at" ].

(** ** Helpers of app.py *)

Definition double_quote : ascii := ascii_of_nat 34.

(** [normalize_columns], on the column labels.  The byte-order mark the
    source deletes first has a code point above 255, so on the text of
    this model [replace] returns its argument. *)
Definition normalize_columns (columns : list string) : list string :=
  map (fun c => strip_char "'" (strip_char double_quote (strip c))) columns.

Definition normalize_digits (value : cell) : string :=
  match value with
  | None => ""
  | Some s => text (List.filter isdigit (chars s))
  end.

Definition first_name (value : cell) : string :=
  match value with
  | None => ""
  | Some s =>
      match split (strip s) with
      | [] => ""
      | p :: _ => p
      end
  end.

(** ** The frames *)

(** The Genesys export after [pd.read_csv(..., dtype=str)]: its column
    labels as read, and per row the cells of the six required columns
    (named after them; a cell is only read once the labels are checked). *)
Module Genesys.
Record row := Row {
  inin_outbound_id : cell;      (* inin-outbound-id *)
  borrower_id : cell;
  full_name : cell;
  phone : cell;
  last_result : cell;           (* CallRecordLastResult-phone *)
  last_wrapup : cell            (* CallRecordLastAgentWrapup-phone *)
}.
Record file := File {
  name : string;
  columns : list string;
  rows : list row
}.
End Genesys.

(** The uploaded ledger after [pd.read_csv(..., dtype=str)]. *)
Module HistoryCsv.
Record row := Row {
  id : cell;
  inin_outbound_id : cell;
  borrower_id : cell;
  selected_at : cell;
  allowed_again_at : cell
}.
Record file := File {
  columns : list string;
  rows : list row
}.
End HistoryCsv.

(** A value of a date column: [load_history_df] leaves [datetime.date]
    objects there, [compute_outputs] writes ISO text for the new rows.
    The two never compare equal. *)
Inductive pyobj :=
| PyDate (d : date)
| PyStr (s : string).

Global Instance pyobj_eq_dec : EqDecision pyobj.
Proof. solve_decision. Defined.

(** [str(v)] *)
Definition py_str (v : pyobj) : string :=
  match v with PyDate d => isoformat d | PyStr s => s end.

(** A ledger row with the five [HISTORY_COLUMNS].  [D] is what the date
    columns hold: [date] in the loaded ledger, [pyobj] in the
    concatenated frame, [string] in the returned one.  The [id] column
    holds the decimal text of an integer, kept here as that integer. *)
Module History.
Record row (D : Type) := Row {
  id : Z;
  inin_outbound_id : string;
  borrower_id : string;
  selected_at : D;
  allowed_again_at : D
}.
Arguments Row {D} _ _ _ _ _.
Arguments id {D} _.
Arguments inin_outbound_id {D} _.
Arguments borrower_id {D} _.
Arguments selected_at {D} _.
Arguments allowed_again_at {D} _.

(** Applying [f] to the two date columns *)
Definition map_dates {D E} (f : D -> E) (r : row D) : row E :=
  Row (id r) (inin_outbound_id r) (borrower_id r)
      (f (selected_at r)) (f (allowed_again_at r)).

(** The [drop_duplicates] subset *)
Definition key {D} (r : row D) : string * string * D :=
  (inin_outbound_id r, borrower_id r, selected_at r).
End History.

(** A row of [new_history_rows] before the [id] column is inserted. *)
Module Candidate.
Record row := Row {
  inin_outbound_id : string;
  borrower_id : string;
  selected_at : string;
  allowed_again_at : string
}.
Definition key (r : row) : string * string * string :=
  (inin_outbound_id r, borrower_id r, selected_at r).
Definition with_id (v : Z) (r : row) : History.row string :=
  History.Row v (inin_outbound_id r) (borrower_id r)
              (selected_at r) (allowed_again_at r).
End Candidate.

(** The key of a ledger row as each of the three frames holds it: with a
    [date] object, with ISO text, and as the text [astype(str)] gives. *)
Definition date_key (k : string * string * date) : string * string * pyobj :=
  (k.1.1, k.1.2, PyDate k.2).

Definition text_key (k : string * string * string)
  : string * string * pyobj :=
  (k.1.1, k.1.2, PyStr k.2).

Definition iso_key (k : string * string * date) : string * string * string :=
  (k.1.1, k.1.2, isoformat k.2).

Module Campaign.
Record row := Row {
  country_code : string;
  phone : string;
  first_name : string
}.
End Campaign.

Module Audit.
Record row := Row {
  source_filename : string;
  campaign_run_at : string;
  borrower_id : string;
  inin_outbound_id : string;
  full_name : cell;
  phone_raw : string;
  phone_full : string;
  phone_10 : string;
  first_name : string;
  filter_cooldown_pass : bool;
  filter_result_pass : bool;
  filter_wrapup_pass : bool;
  filter_phone_pass : bool;
  is_selected_final : bool;
  drop_reason : string;
  selected_at : string;
  allowed_again_at : string
}.
End Audit.

Module Metrics.
Record t := Make {
  registros_entrada : nat;
  removidos_cooldown : nat;
  removidos_result : nat;
  removidos_wrapup : nat;
  removidos_phone : nat;
  seleccionados_finales : nat;
  nuevos_en_historico : nat;
  registros_campana : nat
}.
End Metrics.

Record outputs := Outputs {
  metrics : Metrics.t;
  combined_history : list (History.row string);
  audit_df : list Audit.row;
  campaign_df : list Campaign.row;
  run_date : string;
  run_hhmm : string
}.

Global Instance date_lt_dec : RelDecision date_lt.
Proof. intros a b. unfold date_lt. apply _. Defined.

(** ** [compute_outputs], from the cooldown set on (lines 130-306)

    [now] is the reading of the clock, [source_name] is
    [genesys_file.name], [genesys_df] the rows of the export and
    [history_df] the ledger [load_history_df] returned.  Each definition
    is one assignment of the source, in its order. *)

Section Run.

Variable now : datetime.
Variable source_name : string.
Variable genesys_df : list Genesys.row.
Variable history_df : list (History.row date).

Definition today : date := dt_date now.
Definition run_ts : string := strftime_ts now.

Definition blocked_borrowers : gset string :=
  list_to_set
    (map History.borrower_id
       (filter (fun h => date_lt today (History.allowed_again_at h))
          history_df)).

Definition n_rows : nat := length genesys_df.

Definition col_source_filename : list string := replicate n_rows source_name.
Definition col_campaign_run_at : list string := replicate n_rows run_ts.

Definition col_borrower_id_norm : list string :=
  map (fun c => strip (astype_str c)) (map Genesys.borrower_id genesys_df).

Definition col_inin_outbound_id : list string :=
  map (fun c => strip (astype_str c))
    (map Genesys.inin_outbound_id genesys_df).

Definition result_raw : list string :=
  map (fun c => astype_str (fillna "" c))
    (map Genesys.last_result genesys_df).

Definition wrap_raw : list string :=
  map (fun c => astype_str (fillna "" c))
    (map Genesys.last_wrapup genesys_df).

Definition col_filter_cooldown_pass : list bool :=
  mnot (isin col_borrower_id_norm blocked_borrowers).

Definition col_filter_result_pass : list bool :=
  mor (col_eq "" result_raw) (map (startswith "ININ-OUTBOUND") result_raw).

Definition wrap_norm : list string := map lower (map strip wrap_raw).

Definition col_filter_wrapup_pass : list bool :=
  mor (col_eq "" wrap_norm) (isin wrap_norm ALLOWED_WRAPUPS).

Definition col_phone_raw : list string :=
  map (fun c => astype_str (fillna "" c)) (map Genesys.phone genesys_df).

Definition col_phone_full : list string :=
  map (fun s => normalize_digits (Some s)) col_phone_raw.

Definition col_phone_10 : list string := map (last_n 10) col_phone_full.

Definition col_filter_phone_pass : list bool :=
  map (fun s => Nat.eqb (String.length s) 10) col_phone_10.

Definition col_first_name : list string :=
  map first_name (map Genesys.full_name genesys_df).

Definition col_is_selected_final : list bool :=
  mand (mand (mand col_filter_cooldown_pass col_filter_result_pass)
          col_filter_wrapup_pass)
    col_filter_phone_pass.

Definition selected_at : string := isoformat today.
Definition allowed_again_at : string := isoformat (add_days 7 today).

Definition selected_mask : list bool := col_is_selected_final.

Definition col_selected_at : list string :=
  loc_assign selected_mask selected_at (replicate n_rows "").

Definition col_allowed_again_at : list string :=
  loc_assign selected_mask allowed_again_at (replicate n_rows "").

(** Priority: cooldown -> result -> wrapup -> invalid_phone -> selected *)
Definition col_drop_reason : list string :=
  let c0 := replicate n_rows "selected" in
  let c1 := loc_assign (mnot col_filter_cooldown_pass) "cooldown" c0 in
  let c2 :=
    loc_assign (mand col_filter_cooldown_pass (mnot col_filter_result_pass))
      "result" c1 in
  let c3 :=
    loc_assign
      (mand (mand col_filter_cooldown_pass col_filter_result_pass)
         (mnot col_filter_wrapup_pass))
      "wrapup" c2 in
  loc_assign
    (mand (mand (mand col_filter_cooldown_pass col_filter_result_pass)
             col_filter_wrapup_pass)
       (mnot col_filter_phone_pass))
    "invalid_phone" c3.

(** [selected_df = df[df["is_selected_final"]]]: the positions it keeps *)
Definition selected_index : list nat := mask_index col_is_selected_final.

Definition campaign_df_of : list Campaign.row :=
  map (fun i =>
         Campaign.Row "52" (iloc "" col_phone_10 i) (iloc "" col_first_name i))
    selected_index.

(** Build official historical rows for selected records only. *)
Definition candidate_rows : list Candidate.row :=
  map (fun i =>
         Candidate.Row
           (strip (astype_str (Some (iloc "" col_inin_outbound_id i))))
           (strip (astype_str (Some (iloc "" col_borrower_id_norm i))))
           (iloc "" col_selected_at i)
           (iloc "" col_allowed_again_at i))
    selected_index.

Definition deduplicated_rows : list Candidate.row :=
  drop_duplicates Candidate.key candidate_rows.

Definition existing_keys : gset (string * string * string) :=
  list_to_set
    (map (fun h =>
            (History.inin_outbound_id h, History.borrower_id h,
             py_str (PyDate (History.selected_at h))))
       history_df).

Definition surviving_rows : list Candidate.row :=
  if (0 <? length deduplicated_rows)%nat
  then List.filter
         (fun r => negb (bool_decide (Candidate.key r ∈ existing_keys)))
         deduplicated_rows
  else deduplicated_rows.

Definition max_id : Z :=
  match history_df with
  | [] => 0%Z
  | h :: rest => col_max (History.id h) (map History.id rest)
  end.

Definition new_history_rows : list (History.row string) :=
  if (0 <? length surviving_rows)%nat
  then zip_with Candidate.with_id
         (range (max_id + 1)
            (max_id + Z.of_nat (length surviving_rows) + 1))
         surviving_rows
  else [].

Definition concatenated_history : list (History.row pyobj) :=
  map (History.map_dates PyDate) history_df
  ++ map (History.map_dates PyStr) new_history_rows.

Definition combined_history_of : list (History.row string) :=
  map (History.map_dates py_str)
    (drop_duplicates History.key concatenated_history).

Definition audit_df_of : list Audit.row :=
  map (fun i =>
         Audit.Row
           (iloc "" col_source_filename i)
           (iloc "" col_campaign_run_at i)
           (iloc "" col_borrower_id_norm i)
           (iloc "" col_inin_outbound_id i)
           (iloc None (map Genesys.full_name genesys_df) i)
           (iloc "" col_phone_raw i)
           (iloc "" col_phone_full i)
           (iloc "" col_phone_10 i)
           (iloc "" col_first_name i)
           (iloc false col_filter_cooldown_pass i)
           (iloc false col_filter_result_pass i)
           (iloc false col_filter_wrapup_pass i)
           (iloc false col_filter_phone_pass i)
           (iloc false col_is_selected_final i)
           (iloc "" col_drop_reason i)
           (iloc "" col_selected_at i)
           (iloc "" col_allowed_again_at i))
    (seq 0 n_rows).

Definition metrics_of : Metrics.t :=
  Metrics.Make
    n_rows
    (msum (mnot col_filter_cooldown_pass))
    (msum (mand col_filter_cooldown_pass (mnot col_filter_result_pass)))
    (msum (mand (mand col_filter_cooldown_pass col_filter_result_pass)
             (mnot col_filter_wrapup_pass)))
    (msum (mand (mand (mand col_filter_cooldown_pass col_filter_result_pass)
                   col_filter_wrapup_pass)
             (mnot col_filter_phone_pass)))
    (msum col_is_selected_final)
    (length new_history_rows)
    (length campaign_df_of).

Definition run : outputs :=
  Outputs metrics_of combined_history_of audit_df_of campaign_df_of
    (strftime_dmy now) (strftime_hhmm now).

End Run.

(** ** [load_history_df] and [compute_outputs] *)

Inductive exn := ValueError (msg : string).

Inductive result (A : Type) :=
| Ok (a : A)
| Raise (e : exn).
Arguments Ok {A} _.
Arguments Raise {A} _.

(** [repr] of a list of plain labels, as the f-strings print it *)
Definition repr_list (l : list string) : string :=
  "[" ++ join ", " (map (fun c => "'" ++ c ++ "'") l) ++ "]".

(** The labels of [required] that are not among [columns] *)
Definition missing_columns (required columns : list string) : list string :=
  List.filter (fun c => negb (bool_decide (c ∈ columns))) required.

(** [int(col.isna().sum())] *)
Definition isna_sum {A} (col : list (option A)) : nat :=
  length (List.filter (fun v => match v with None => true | Some _ => false end)
            col).

(** The column a frame of [n] rows holds after [df[c] = parsed] *)
Definition assigned {A} (n : nat) (parsed : list (option A)) : list (option A) :=
  map (fun i => mjoin (parsed !! i)) (seq 0 n).

Definition invalid_dates_message : string :=
  "El historico contiene fechas invalidas en 'selected_at' o 'allowed_again_at'.".

Definition invalid_id_message : string :=
  "El historico contiene valores invalidos en la columna 'id'.".

Section Loader.

(** The two pandas parsers, which are not part of the repository.
    [to_datetime col] is [pd.to_datetime(col, errors="coerce").dt.date],
    [None] standing for NaT; [to_numeric col] is
    [pd.to_numeric(col, errors="coerce")] read as the [int64] the loader
    casts it to, [None] standing for NaN. *)
Variable to_datetime : list cell -> list (option date).
Variable to_numeric : list cell -> list (option Z).

Definition load_history_df (uploaded_file : option HistoryCsv.file)
  : result (list (History.row date)) :=
  match uploaded_file with
  | None => Ok []
  | Some f =>
      let columns := normalize_columns (HistoryCsv.columns f) in
      let missing := missing_columns HISTORY_COLUMNS columns in
      if (0 <? length missing)%nat
      then Raise (ValueError
                    ("El archivo historico no tiene el formato esperado. "
                     ++ "Columnas faltantes: " ++ repr_list missing))
      else
        let history := HistoryCsv.rows f in
        let n := length history in
        let selected_at :=
          assigned n (to_datetime (map HistoryCsv.selected_at history)) in
        let allowed_again_at :=
          assigned n (to_datetime (map HistoryCsv.allowed_again_at history)) in
        let invalid_selected := isna_sum selected_at in
        let invalid_allowed := isna_sum allowed_again_at in
        if ((0 <? invalid_selected) || (0 <? invalid_allowed))%nat
        then Raise (ValueError invalid_dates_message)
        else
          let id_num := assigned n (to_numeric (map HistoryCsv.id history)) in
          if (0 <? isna_sum id_num)%nat
          then Raise (ValueError invalid_id_message)
          else
            Ok (map (fun i =>
                       History.Row
                         (default 0%Z (iloc None id_num i))
                         (strip (astype_str
                            (iloc None (map HistoryCsv.inin_outbound_id history) i)))
                         (strip (astype_str
                            (iloc None (map HistoryCsv.borrower_id history) i)))
                         (default (Date 0 0 0) (iloc None selected_at i))
                         (default (Date 0 0 0) (iloc None allowed_again_at i)))
                  (seq 0 n))
  end.

Definition compute_outputs (now : datetime) (genesys_file : Genesys.file)
    (history_file : option HistoryCsv.file) : result outputs :=
  let columns := normalize_columns (Genesys.columns genesys_file) in
  let missing_genesys := missing_columns REQUIRED_GENESYS_COLUMNS columns in
  if (0 <? length missing_genesys)%nat
  then Raise (ValueError
                ("El archivo Genesys no contiene todas las columnas requeridas. "
                 ++ "Faltan: " ++ repr_list missing_genesys))
  else
    match load_history_df history_file with
    | Raise e => Raise e
    | Ok history_df =>
        Ok (run now (Genesys.name genesys_file) (Genesys.rows genesys_file)
              history_df)
    end.

End Loader.

(** ** [build_final_zip]

    The archive is the list of its members, name and content, in the
    order [writestr] adds them.  [to_excel_bytes] and [to_csv_bytes] wrap
    the pandas writers; what they return is kept abstract, one writer
    per frame. *)

Section Packaging.

Variable bytes : Type.
Variable campaign_to_excel_bytes : list Campaign.row -> bool -> bytes.
Variable audit_to_excel_bytes : list Audit.row -> bool -> bytes.
Variable history_to_csv_bytes : list (History.row string) -> bytes.

Definition build_final_zip (history_df : list (History.row string))
    (audit_df : list Audit.row) (campaign_df : list Campaign.row)
    (run_date run_hhmm : string) : string * list (string * bytes) :=
  let date_token := lower run_date in
  let zip_name := "telesales_campaign_" ++ run_date ++ ".zip" in
  let campaign_name := "1_campaign_wa_" ++ date_token ++ ".xlsx" in
  let hist_name := "sent_history_" ++ date_token ++ ".csv" in
  let audit_name :=
    "audit_campaign_" ++ date_token ++ "-" ++ run_hhmm ++ ".xlsx" in
  (zip_name,
   [ (campaign_name, campaign_to_excel_bytes campaign_df false);
     (hist_name, history_to_csv_bytes history_df);
     (audit_name, audit_to_excel_bytes audit_df true) ]).

End Packaging.

(** ** The columns read row by row

    What the column program above computes for one row [g] of the export.
    These functions are not in the source: the lemmas below show that
    every column is one of them mapped over [genesys_df], and the
    properties of the frames are then proved on rows. *)

Section RowView.

Variable now : datetime.
Variable source_name : string.
Variable history_df : list (History.row date).

Definition row_borrower_id (g : Genesys.row) : string :=
  strip (astype_str (Genesys.borrower_id g)).

Definition row_inin_outbound_id (g : Genesys.row) : string :=
  strip (astype_str (Genesys.inin_outbound_id g)).

Definition row_result (g : Genesys.row) : string :=
  astype_str (fillna "" (Genesys.last_result g)).

Definition row_wrapup (g : Genesys.row) : string :=
  lower (strip (astype_str (fillna "" (Genesys.last_wrapup g)))).

Definition row_phone_raw (g : Genesys.row) : string :=
  astype_str (fillna "" (Genesys.phone g)).

Definition row_phone_full (g : Genesys.row) : string :=
  normalize_digits (Some (row_phone_raw g)).

Definition row_phone_10 (g : Genesys.row) : string :=
  last_n 10 (row_phone_full g).

Definition cooldown_pass (g : Genesys.row) : bool :=
  negb (bool_decide (row_borrower_id g ∈ blocked_borrowers now history_df)).

Definition result_pass (g : Genesys.row) : bool :=
  String.eqb (row_result g) "" || startswith "ININ-OUTBOUND" (row_result g).

Definition wrapup_pass (g : Genesys.row) : bool :=
  String.eqb (row_wrapup g) ""
  || bool_decide (row_wrapup g ∈ ALLOWED_WRAPUPS).

Definition phone_pass (g : Genesys.row) : bool :=
  Nat.eqb (String.length (row_phone_10 g)) 10.

Definition row_selected (g : Genesys.row) : bool :=
  cooldown_pass g && result_pass g && wrapup_pass g && phone_pass g.

(** The four assignments of [drop_reason], the last one outermost *)
Definition row_drop_reason (g : Genesys.row) : string :=
  if cooldown_pass g && result_pass g && wrapup_pass g
     && negb (phone_pass g)
  then "invalid_phone"
  else if cooldown_pass g && result_pass g && negb (wrapup_pass g)
  then "wrapup"
  else if cooldown_pass g && negb (result_pass g)
  then "result"
  else if negb (cooldown_pass g)
  then "cooldown"
  else "selected".

Definition row_selected_at (g : Genesys.row) : string :=
  if row_selected g then selected_at now else "".

Definition row_allowed_again_at (g : Genesys.row) : string :=
  if row_selected g then allowed_again_at now else "".

Definition audit_row (g : Genesys.row) : Audit.row :=
  Audit.Row source_name (run_ts now) (row_borrower_id g)
    (row_inin_outbound_id g) (Genesys.full_name g) (row_phone_raw g)
    (row_phone_full g) (row_phone_10 g) (first_name (Genesys.full_name g))
    (cooldown_pass g) (result_pass g) (wrapup_pass g) (phone_pass g)
    (row_selected g) (row_drop_reason g) (row_selected_at g)
    (row_allowed_again_at g).

Definition campaign_row (g : Genesys.row) : Campaign.row :=
  Campaign.Row "52" (row_phone_10 g) (first_name (Genesys.full_name g)).

Definition candidate_row (g : Genesys.row) : Candidate.row :=
  Candidate.Row (strip (row_inin_outbound_id g)) (strip (row_borrower_id g))
    (row_selected_at g) (row_allowed_again_at g).

End RowView.

(** ** Stand-ins for the pandas parsers

    Used where a statement is evaluated on a concrete file.  They read
    the two formats the tool itself writes, ISO dates and decimal
    integers, and reject every other text. *)

Fixpoint split_on (sep : ascii) (cur : list ascii) (l : list ascii)
  : list string :=
  match l with
  | [] => [text (rev cur)]
  | c :: l' =>
      if Ascii.eqb c sep
      then text (rev cur) :: split_on sep [] l'
      else split_on sep (c :: cur) l'
  end.

Definition parse_iso_date (s : string) : option date :=
  match split_on "-" [] (chars s) with
  | [y; m; d] =>
      match undec y, undec m, undec d with
      | Some y', Some m', Some d' =>
          if ((String.length y =? 4) && (String.length m =? 2)
              && (String.length d =? 2)
              && (1 <=? y') && (1 <=? m') && (m' <=? 12)
              && (1 <=? d') && (d' <=? days_in_month y' m'))%nat
          then Some (Date y' m' d')
          else None
      | _, _, _ => None
      end
  | _ => None
  end.

Definition iso_to_datetime (col : list cell) : list (option date) :=
  map (fun c => match c with Some s => parse_iso_date s | None => None end)
    col.

Definition parse_decimal (s : string) : option Z :=
  match s with
  | "" => None
  | _ => Z.of_nat <$> undec s
  end.

Definition decimal_to_numeric (col : list cell) : list (option Z) :=
  map (fun c => match c with Some s => parse_decimal s | None => None end)
    col.

(** The number of rows of an uploaded ledger with a date that does not
    parse, for a given date parser *)
Definition invalid_date_rows (to_datetime : list cell -> list (option date))
    (f : HistoryCsv.file) : nat :=
  let history := HistoryCsv.rows f in
  let n := length history in
  let s := assigned n (to_datetime (map HistoryCsv.selected_at history)) in
  let a := assigned n (to_datetime (map HistoryCsv.allowed_again_at history)) in
  length (List.filter
            (fun i => match iloc None s i, iloc None a i with
                      | Some _, Some _ => false
                      | _, _ => true
                      end)
            (seq 0 n)).

(** ** Running examples *)

Module Example.

Definition now : datetime := DateTime (Date 2024 3 5) 9 30 0.

Definition columns : list string :=
  [ "inin-outbound-id"; "borrower_id"; "full_name"; "phone";
    "CallRecordLastResult-phone"; "CallRecordLastAgentWrapup-phone" ].

Definition ana : Genesys.row :=
  Genesys.Row (Some "OB-1") (Some " 1001 ") (Some "Ana Maria Lopez")
    (Some "+52 (55) 1234-5678") None (Some " CALL BACK ").

Definition beto : Genesys.row :=
  Genesys.Row (Some "OB-2") (Some "1002") (Some "Beto Ruiz")
    (Some "12345") (Some "ININ-OUTBOUND-BUSY") None.

Definition caro : Genesys.row :=
  Genesys.Row (Some "OB-3") (Some "1003") (Some "Caro Diaz")
    (Some "5598765432") None None.

Definition dani : Genesys.row :=
  Genesys.Row (Some "OB-4") (Some "1004") None
    (Some "55 1111 2222") (Some "ANSWERED") (Some "not interested").

Definition eli : Genesys.row :=
  Genesys.Row (Some "OB-5") (Some "1003") (Some "Eli")
    (Some "12345") None None.

Definition genesys_file : Genesys.file :=
  Genesys.File "telesales.csv" columns [ana; beto; caro; dani; ana; eli].

Definition history_file : HistoryCsv.file :=
  HistoryCsv.File HISTORY_COLUMNS
    [ HistoryCsv.Row (Some "7") (Some "OB-0") (Some "1003")
        (Some "2024-02-28") (Some "2024-03-06");
      HistoryCsv.Row (Some "4") (Some "OB-0") (Some "1001")
        (Some "2024-02-27") (Some "2024-03-05") ].

Definition history_df : list (History.row date) :=
  [ History.Row 7 "OB-0" "1003" (Date 2024 2 28) (Date 2024 3 6);
    History.Row 4 "OB-0" "1001" (Date 2024 2 27) (Date 2024 3 5) ].

Definition out : outputs :=
  run now "telesales.csv" (Genesys.rows genesys_file) history_df.




(** The ledger the example run returns, as the next run loads it. *)
Definition history_df_after : list (History.row date) :=
  [ History.Row 7 "OB-0" "1003" (Date 2024 2 28) (Date 2024 3 6);
    History.Row 4 "OB-0" "1001" (Date 2024 2 27) (Date 2024 3 5);
    History.Row 8 "OB-1" "1001" (Date 2024 3 5) (Date 2024 3 12) ].

(** Two uploads with unreadable dates, in one row and in two. *)
Definition bad_history_file_1 : HistoryCsv.file :=
  HistoryCsv.File HISTORY_COLUMNS
    [ HistoryCsv.Row (Some "1") (Some "OB-0") (Some "1001")
        (Some "not a date") (Some "2024-03-05");
      HistoryCsv.Row (Some "2") (Some "OB-0") (Some "1002")
        (Some "2024-02-27") (Some "2024-03-05") ].

Definition bad_history_file_2 : HistoryCsv.file :=
  HistoryCsv.File HISTORY_COLUMNS
    [ HistoryCsv.Row (Some "1") (Some "OB-0") (Some "1001")
        (Some "not a date") (Some "2024-03-05");
      HistoryCsv.Row (Some "2") (Some "OB-0") (Some "1002")
        (Some "2024-02-27") None ].

End Example.

(** * Properties *)

(** ** Columns and masks *)

Lemma zip_with_map_map {A B C D} (f : B -> C -> D) (g : A -> B)
    (h : A -> C) l :
  zip_with f (map g l) (map h l) = map (fun x => f (g x) (h x)) l.
Proof. induction l as [|x l IH]; simpl; [done | by rewrite IH]. Qed.

Lemma replicate_length_map {A B} (x : B) (l : list A) :
  replicate (length l) x = map (fun _ => x) l.
Proof. induction l as [|y l IH]; simpl; [done | by rewrite IH]. Qed.

Lemma loc_assign_map {A B} (p : A -> bool) (v : B) (f : A -> B) l :
  loc_assign (map p l) v (map f l) = map (fun x => if p x then v else f x) l.
Proof. apply zip_with_map_map. Qed.

Lemma lookup_map {A B} (f : A -> B) (l : list A) i :
  map f l !! i = f <$> (l !! i).
Proof. apply (list_lookup_fmap f l i). Qed.

Lemma iloc_lookup {A} (d : A) (l : list A) i x :
  l !! i = Some x -> iloc d l i = x.
Proof. intros H. unfold iloc. by rewrite nth_lookup, H. Qed.

Lemma iloc_map {A B} (d : B) (f : A -> B) (l : list A) i x :
  l !! i = Some x -> iloc d (map f l) i = f x.
Proof. intros H. apply iloc_lookup. by rewrite lookup_map, H. Qed.

(** A frame assembled by position is the row function mapped over the
    rows it is assembled from. *)
Lemma map_seq_rows {A B} (F : nat -> B) (G : A -> B) (l : list A) k :
  (forall i x, l !! i = Some x -> F (k + i) = G x) ->
  map F (seq k (length l)) = map G l.
Proof.
  revert k. induction l as [|x l IH]; intros k H; simpl; [done|].
  f_equal.
  - rewrite <- (Nat.add_0_r k). by apply H.
  - apply IH. intros i y Hi.
    replace (S k + i) with (k + S i) by lia. by apply H.
Qed.

(** The same for the positions a mask keeps. *)
Lemma map_filter_seq_rows {A B} (q : nat -> bool) (p : A -> bool)
    (F : nat -> B) (G : A -> B) (l : list A) k :
  (forall i x, l !! i = Some x -> q (k + i) = p x /\ F (k + i) = G x) ->
  map F (List.filter q (seq k (length l))) = map G (List.filter p l).
Proof.
  revert k. induction l as [|x l IH]; intros k H; simpl; [done|].
  destruct (H 0 x eq_refl) as [Hq HF]. rewrite Nat.add_0_r in Hq, HF.
  assert (IH' : map F (List.filter q (seq (S k) (length l)))
                = map G (List.filter p l)).
  { apply IH. intros i y Hi.
    replace (S k + i) with (k + S i) by lia. by apply H. }
  rewrite Hq. destruct (p x); simpl; by rewrite ?HF, IH'.
Qed.

Lemma map_mask_index_rows {A B} (p : A -> bool) (F : nat -> B) (G : A -> B) l :
  (forall i x, l !! i = Some x -> F i = G x) ->
  map F (mask_index (map p l)) = map G (List.filter p l).
Proof.
  intros H. unfold mask_index. rewrite length_map.
  apply map_filter_seq_rows. intros i x Hi. simpl. split.
  - by apply iloc_map.
  - by apply H.
Qed.

Lemma msum_map {A} (p : A -> bool) l :
  msum (map p l) = length (List.filter p l).
Proof.
  unfold msum. induction l as [|x l IH]; [done|].
  cbn [map List.filter]. unfold id at 1.
  destruct (p x); cbn [length]; by rewrite IH.
Qed.

Lemma mnot_map {A} (p : A -> bool) l :
  mnot (map p l) = map (fun x => negb (p x)) l.
Proof. unfold mnot. apply map_map. Qed.

Lemma mand_map {A} (p q : A -> bool) l :
  mand (map p l) (map q l) = map (fun x => p x && q x) l.
Proof. apply zip_with_map_map. Qed.

Lemma mor_map {A} (p q : A -> bool) l :
  mor (map p l) (map q l) = map (fun x => p x || q x) l.
Proof. apply zip_with_map_map. Qed.

Lemma isin_map {A} `{Countable K} (f : A -> K) (s : gset K) l :
  isin (map f l) s = map (fun x => bool_decide (f x ∈ s)) l.
Proof. unfold isin. apply map_map. Qed.

Lemma col_eq_map {A} (f : A -> string) v l :
  col_eq v (map f l) = map (fun x => String.eqb (f x) v) l.
Proof. unfold col_eq. apply map_map. Qed.

Create Rewrite HintDb columns.

#[local] Hint Rewrite @map_map @mnot_map @mand_map @mor_map @isin_map
  @col_eq_map @loc_assign_map @replicate_length_map : columns.

(** ** Every column is a row function mapped over the export *)

Section ColumnsAreRows.

Variable now : datetime.
Variable source_name : string.
Variable genesys_df : list Genesys.row.
Variable history_df : list (History.row date).

Ltac by_rows :=
  unfold n_rows; autorewrite with columns; reflexivity.

Lemma col_borrower_id_norm_rows :
  col_borrower_id_norm genesys_df = map row_borrower_id genesys_df.
Proof. unfold col_borrower_id_norm. by_rows. Qed.

Lemma col_inin_outbound_id_rows :
  col_inin_outbound_id genesys_df = map row_inin_outbound_id genesys_df.
Proof. unfold col_inin_outbound_id. by_rows. Qed.

Lemma col_filter_cooldown_pass_rows :
  col_filter_cooldown_pass now genesys_df history_df
  = map (cooldown_pass now history_df) genesys_df.
Proof.
  unfold col_filter_cooldown_pass. rewrite col_borrower_id_norm_rows. by_rows.
Qed.

Lemma col_filter_result_pass_rows :
  col_filter_result_pass genesys_df = map result_pass genesys_df.
Proof. unfold col_filter_result_pass, result_raw. by_rows. Qed.

Lemma col_filter_wrapup_pass_rows :
  col_filter_wrapup_pass genesys_df = map wrapup_pass genesys_df.
Proof. unfold col_filter_wrapup_pass, wrap_norm, wrap_raw. by_rows. Qed.

Lemma col_phone_raw_rows :
  col_phone_raw genesys_df = map row_phone_raw genesys_df.
Proof. unfold col_phone_raw. by_rows. Qed.

Lemma col_phone_full_rows :
  col_phone_full genesys_df = map row_phone_full genesys_df.
Proof. unfold col_phone_full. rewrite col_phone_raw_rows. by_rows. Qed.

Lemma col_phone_10_rows :
  col_phone_10 genesys_df = map row_phone_10 genesys_df.
Proof. unfold col_phone_10. rewrite col_phone_full_rows. by_rows. Qed.

Lemma col_filter_phone_pass_rows :
  col_filter_phone_pass genesys_df = map phone_pass genesys_df.
Proof. unfold col_filter_phone_pass. rewrite col_phone_10_rows. by_rows. Qed.

Lemma col_first_name_rows :
  col_first_name genesys_df
  = map (fun g => first_name (Genesys.full_name g)) genesys_df.
Proof. unfold col_first_name. by_rows. Qed.

Lemma col_is_selected_final_rows :
  col_is_selected_final now genesys_df history_df
  = map (row_selected now history_df) genesys_df.
Proof.
  unfold col_is_selected_final.
  rewrite col_filter_cooldown_pass_rows, col_filter_result_pass_rows,
    col_filter_wrapup_pass_rows, col_filter_phone_pass_rows.
  by_rows.
Qed.

Lemma col_selected_at_rows :
  col_selected_at now genesys_df history_df
  = map (row_selected_at now history_df) genesys_df.
Proof.
  unfold col_selected_at, selected_mask.
  rewrite col_is_selected_final_rows. by_rows.
Qed.

Lemma col_allowed_again_at_rows :
  col_allowed_again_at now genesys_df history_df
  = map (row_allowed_again_at now history_df) genesys_df.
Proof.
  unfold col_allowed_again_at, selected_mask.
  rewrite col_is_selected_final_rows. by_rows.
Qed.

Lemma col_drop_reason_rows :
  col_drop_reason now genesys_df history_df
  = map (row_drop_reason now history_df) genesys_df.
Proof.
  unfold col_drop_reason.
  rewrite col_filter_cooldown_pass_rows, col_filter_result_pass_rows,
    col_filter_wrapup_pass_rows, col_filter_phone_pass_rows.
  by_rows.
Qed.

End ColumnsAreRows.

(** ** The frames are row functions mapped over the export *)

Section FramesAreRows.

Variable now : datetime.
Variable source_name : string.
Variable genesys_df : list Genesys.row.
Variable history_df : list (History.row date).

Lemma audit_df_rows :
  audit_df_of now source_name genesys_df history_df
  = map (audit_row now source_name history_df) genesys_df.
Proof.
  unfold audit_df_of, n_rows. apply map_seq_rows. intros i g Hg. simpl.
  unfold audit_row, col_source_filename, col_campaign_run_at, n_rows.
  rewrite !replicate_length_map.
  rewrite col_borrower_id_norm_rows, col_inin_outbound_id_rows,
    col_phone_raw_rows, col_phone_full_rows, col_phone_10_rows,
    col_first_name_rows, col_filter_cooldown_pass_rows,
    col_filter_result_pass_rows, col_filter_wrapup_pass_rows,
    col_filter_phone_pass_rows, col_is_selected_final_rows,
    col_drop_reason_rows, col_selected_at_rows, col_allowed_again_at_rows.
  by rewrite !(iloc_map _ _ _ _ _ Hg).
Qed.

Lemma campaign_df_rows :
  campaign_df_of now genesys_df history_df
  = map campaign_row (List.filter (row_selected now history_df) genesys_df).
Proof.
  unfold campaign_df_of, selected_index.
  rewrite col_is_selected_final_rows.
  apply map_mask_index_rows. intros i g Hg.
  rewrite col_phone_10_rows, col_first_name_rows.
  by rewrite !(iloc_map _ _ _ _ _ Hg).
Qed.

Lemma candidate_rows_rows :
  candidate_rows now genesys_df history_df
  = map (candidate_row now history_df)
      (List.filter (row_selected now history_df) genesys_df).
Proof.
  unfold candidate_rows, selected_index.
  rewrite col_is_selected_final_rows.
  apply map_mask_index_rows. intros i g Hg.
  rewrite col_inin_outbound_id_rows, col_borrower_id_norm_rows,
    col_selected_at_rows, col_allowed_again_at_rows.
  by rewrite !(iloc_map _ _ _ _ _ Hg).
Qed.

End FramesAreRows.

(** ** Text and dates *)

Lemma undec_dec n : undec (dec n) = Some n.
Proof.
  unfold undec, dec. rewrite NilEmpty.usu. simpl.
  by rewrite DecimalNat.Unsigned.of_to.
Qed.

Lemma of_uint_D0 d : Nat.of_uint (Decimal.D0 d) = Nat.of_uint d.
Proof. reflexivity. Qed.

Lemma undec_zeros k s : undec (zeros k ++ s) = undec s.
Proof.
  induction k as [|k IH]; [done|].
  rewrite <- IH. unfold undec. simpl.
  destruct (NilEmpty.uint_of_string (zeros k ++ s)) as [d|]; [|done].
  simpl. by rewrite of_uint_D0.
Qed.

Lemma undec_pad k n : undec (pad k n) = Some n.
Proof. unfold pad. by rewrite undec_zeros, undec_dec. Qed.

Lemma pad_inj k a b : pad k a = pad k b -> a = b.
Proof.
  intros H. apply (f_equal undec) in H. rewrite !undec_pad in H. congruence.
Qed.

Lemma string_of_uint_no_dash d :
  ~ In "-"%char (chars (NilEmpty.string_of_uint d)).
Proof. induction d; simpl; intuition discriminate. Qed.

Lemma pad_no_dash k n : ~ In "-"%char (chars (pad k n)).
Proof.
  unfold pad, dec. generalize (k - String.length
    (NilEmpty.string_of_uint (Nat.to_uint n)))%nat. intros j.
  induction j as [|j IH]; simpl.
  - apply string_of_uint_no_dash.
  - intros [H|H]; [discriminate | auto].
Qed.

Lemma append_dash_inj s1 s2 t1 t2 :
  ~ In "-"%char (chars s1) -> ~ In "-"%char (chars s2) ->
  s1 ++ String "-" t1 = s2 ++ String "-" t2 -> s1 = s2 /\ t1 = t2.
Proof.
  revert s2. induction s1 as [|c s1 IH]; intros [|c' s2] H1 H2 E;
    simpl in *.
  - by inversion E.
  - inversion E; subst. destruct H2; auto.
  - inversion E; subst. destruct H1; auto.
  - inversion E; subst. destruct (IH s2) as [-> ->]; auto.
Qed.

Lemma isoformat_inj a b : isoformat a = isoformat b -> a = b.
Proof.
  destruct a as [y m d], b as [y' m' d']. unfold isoformat. simpl.
  intros E.
  apply append_dash_inj in E as [Ey E]; try apply pad_no_dash.
  apply append_dash_inj in E as [Em Ed]; try apply pad_no_dash.
  apply pad_inj in Ey, Em, Ed. by subst.
Qed.

Global Instance isoformat_Inj : Inj (=) (=) isoformat.
Proof. intros a b. apply isoformat_inj. Qed.

Lemma isoformat_nonempty d : isoformat d <> "".
Proof.
  unfold isoformat. destruct (pad 4 (year d)); discriminate.
Qed.

Lemma date_lt_spec a b :
  date_lt a b <->
  (year a < year b
   \/ (year a = year b
       /\ (month a < month b \/ (month a = month b /\ day a < day b))))%nat.
Proof.
  unfold date_lt, date_ltb.
  rewrite !orb_true_iff, !andb_true_iff, !orb_true_iff, !andb_true_iff,
    !Nat.ltb_lt, !Nat.eqb_eq.
  tauto.
Qed.

Lemma date_lt_irrefl d : ~ date_lt d d.
Proof. rewrite date_lt_spec. lia. Qed.

Lemma date_le_not_lt a b : date_le a b <-> ~ date_lt b a.
Proof.
  unfold date_le, date_lt. destruct (date_ltb b a); split; try done.
Qed.

Lemma date_lt_next_day d : date_lt d (next_day d).
Proof.
  apply date_lt_spec. unfold next_day.
  destruct (day d <? days_in_month (year d) (month d))%nat eqn:Hd;
    [simpl; lia|].
  destruct (month d <? 12)%nat eqn:Hm; simpl; lia.
Qed.

(** ** [drop_duplicates] *)

Lemma elem_of_map {A B} (f : A -> B) (l : list A) y :
  y ∈ map f l <-> exists x, y = f x /\ x ∈ l.
Proof. apply (list_elem_of_fmap f l y). Qed.

Lemma elem_of_map_2 {A B} (f : A -> B) (l : list A) x :
  x ∈ l -> f x ∈ map f l.
Proof. intros H. apply elem_of_map. eauto. Qed.

Lemma elem_of_List_filter {A} (p : A -> bool) (l : list A) x :
  x ∈ List.filter p l <-> x ∈ l /\ p x = true.
Proof. rewrite !list_elem_of_In. apply filter_In. Qed.

Lemma NoDup_map_filter {A K} (key : A -> K) (p : A -> bool) l :
  NoDup (map key l) -> NoDup (map key (List.filter p l)).
Proof.
  induction l as [|x l IH]; simpl; [done|].
  rewrite NoDup_cons. intros [Hx Hl]. destruct (p x); simpl; [|by auto].
  apply NoDup_cons. split; [|by auto].
  intros (y & Hy & Hin)%elem_of_map. apply Hx.
  apply elem_of_List_filter in Hin as [Hin _].
  rewrite Hy. by apply elem_of_map_2.
Qed.

Section DropDuplicates.

Context {A K : Type} `{EqDecision K} (key : A -> K).

Lemma drop_duplicates_from_ext s1 s2 l :
  (forall k, k ∈ s1 <-> k ∈ s2) ->
  drop_duplicates_from key s1 l = drop_duplicates_from key s2 l.
Proof.
  revert s1 s2. induction l as [|x l IH]; intros s1 s2 H; simpl; [done|].
  rewrite (bool_decide_ext _ _ (H (key x))).
  destruct (bool_decide (key x ∈ s2)); [by apply IH|].
  f_equal. apply IH. intros k. rewrite !elem_of_cons, H. done.
Qed.

Lemma drop_duplicates_from_elem seen l x :
  x ∈ drop_duplicates_from key seen l -> x ∈ l /\ key x ∉ seen.
Proof.
  revert seen. induction l as [|y l IH]; intros seen; simpl.
  - by intros ?%elem_of_nil.
  - case_bool_decide as Hy.
    + intros [? ?]%IH. split; [by apply elem_of_cons; right | done].
    + rewrite elem_of_cons. intros [->|[? Hn]%IH].
      * split; [by apply elem_of_cons; left | done].
      * split; [by apply elem_of_cons; right|].
        intros ?. apply Hn. by apply elem_of_cons; right.
Qed.

Lemma drop_duplicates_from_NoDup seen l :
  NoDup (map key (drop_duplicates_from key seen l)).
Proof.
  revert seen. induction l as [|x l IH]; intros seen; simpl.
  - apply NoDup_nil_2.
  - case_bool_decide as Hx; [by apply IH|]. simpl.
    apply NoDup_cons. split; [|by apply IH].
    intros (y & Hy & [_ Hn]%drop_duplicates_from_elem)%elem_of_map.
    apply Hn. rewrite Hy. apply elem_of_cons. by left.
Qed.

Lemma drop_duplicates_from_id seen l :
  NoDup (map key l) -> (forall x, x ∈ l -> key x ∉ seen) ->
  drop_duplicates_from key seen l = l.
Proof.
  revert seen. induction l as [|x l IH]; intros seen Hd Hs; simpl; [done|].
  simpl in Hd. apply NoDup_cons in Hd as [Hx Hd].
  rewrite bool_decide_false by (apply Hs, elem_of_cons; by left).
  f_equal. apply IH; [done|].
  intros y Hy. rewrite elem_of_cons. intros [E|Hin].
  - apply Hx. rewrite <- E. by apply elem_of_map_2.
  - apply (Hs y); [by apply elem_of_cons; right | done].
Qed.

Lemma drop_duplicates_from_app seen l1 l2 :
  drop_duplicates_from key seen (l1 ++ l2)%list
  = (drop_duplicates_from key seen l1
     ++ drop_duplicates_from key (map key l1 ++ seen) l2)%list.
Proof.
  revert seen. induction l1 as [|x l1 IH]; intros seen; simpl; [done|].
  case_bool_decide as Hx.
  - rewrite IH. f_equal. apply drop_duplicates_from_ext.
    intros k. rewrite elem_of_cons, !elem_of_app.
    split; [tauto | intros [->|?]; tauto].
  - simpl. f_equal. rewrite IH. f_equal. apply drop_duplicates_from_ext.
    intros k. rewrite !elem_of_cons, !elem_of_app, !elem_of_cons. tauto.
Qed.

(** Every key of the input is seen before or survives. *)
Lemma drop_duplicates_from_keys seen l k :
  k ∈ map key l ->
  k ∈ seen \/ k ∈ map key (drop_duplicates_from key seen l).
Proof.
  revert seen. induction l as [|x l IH]; intros seen; simpl.
  - by intros ?%elem_of_nil.
  - rewrite elem_of_cons. intros [->|Hk].
    + case_bool_decide; [by left|]. right. simpl. apply elem_of_cons. by left.
    + case_bool_decide as Hx; [by apply IH|].
      destruct (IH (key x :: seen) Hk) as [Hs|Hs].
      * apply elem_of_cons in Hs as [->|Hs]; [|by left].
        right. simpl. apply elem_of_cons. by left.
      * right. simpl. apply elem_of_cons. by right.
Qed.

Lemma drop_duplicates_length_le seen l :
  (length (drop_duplicates_from key seen l) <= length l)%nat.
Proof.
  revert seen. induction l as [|x l IH]; intros seen; simpl; [done|].
  case_bool_decide; simpl; [specialize (IH seen) | specialize (IH (key x :: seen))];
    lia.
Qed.

End DropDuplicates.

(** Renaming the keys by an injection commutes with [drop_duplicates]. *)
Lemma drop_duplicates_from_map {A B K L} `{EqDecision K} `{EqDecision L}
    (key : A -> K) (key' : B -> L) (f : A -> B) (g : K -> L) seen l :
  Inj (=) (=) g -> (forall x, key' (f x) = g (key x)) ->
  drop_duplicates_from key' (map g seen) (map f l)
  = map f (drop_duplicates_from key seen l).
Proof.
  intros Hg Hk. revert seen. induction l as [|x l IH]; intros seen; simpl;
    [done|].
  rewrite Hk.
  rewrite (bool_decide_ext (g (key x) ∈ map g seen) (key x ∈ seen)).
  2:{ rewrite elem_of_map. split.
      - intros (k & E & Hin). apply Hg in E. by subst.
      - intros Hin. eauto. }
  case_bool_decide; [by apply IH|]. simpl. f_equal.
  apply (IH (key x :: seen)).
Qed.

(** ** The reconciler *)

Lemma range_length a n : length (range a (a + Z.of_nat n)) = n.
Proof.
  unfold range. rewrite length_map, length_seq.
  replace (a + Z.of_nat n - a)%Z with (Z.of_nat n) by lia.
  apply Nat2Z.id.
Qed.

Lemma range_seq a n :
  range a (a + Z.of_nat n) = map (fun k => (a + Z.of_nat k)%Z) (seq 0 n).
Proof.
  unfold range.
  replace (a + Z.of_nat n - a)%Z with (Z.of_nat n) by lia.
  by rewrite Nat2Z.id.
Qed.

Lemma elem_of_range a n z :
  z ∈ range a (a + Z.of_nat n) <-> (a <= z < a + Z.of_nat n)%Z.
Proof.
  rewrite range_seq, elem_of_map. split.
  - intros (k & -> & Hk). apply elem_of_seq in Hk. lia.
  - intros Hz. exists (Z.to_nat (z - a)). split; [lia|].
    apply elem_of_seq. lia.
Qed.

Lemma NoDup_range a n : NoDup (range a (a + Z.of_nat n)).
Proof.
  rewrite range_seq.
  apply (NoDup_fmap_2_strong (fun k => (a + Z.of_nat k)%Z)).
  - intros x y _ _ E. lia.
  - apply NoDup_seq.
Qed.

Lemma zip_with_id_ids ids rows :
  length ids = length rows ->
  map History.id (zip_with Candidate.with_id ids rows) = ids.
Proof.
  revert rows. induction ids as [|v ids IH]; intros [|r rows] H;
    simpl in *; try done.
  f_equal. apply IH. lia.
Qed.

Lemma zip_with_id_keys ids rows :
  length ids = length rows ->
  map History.key (zip_with Candidate.with_id ids rows)
  = map Candidate.key rows.
Proof.
  revert rows. induction ids as [|v ids IH]; intros [|r rows] H;
    simpl in *; try done.
  f_equal. apply IH. lia.
Qed.

Lemma col_max_ge first rest :
  (first <= col_max first rest)%Z
  /\ Forall (fun z => (z <= col_max first rest)%Z) rest.
Proof.
  unfold col_max. revert first.
  induction rest as [|z rest IH]; intros first; simpl.
  - split; [lia | constructor].
  - destruct (IH (Z.max first z)) as [H1 H2]. split; [lia|].
    constructor; [lia | done].
Qed.

Lemma col_max_elem first rest :
  col_max first rest ∈ first :: rest.
Proof.
  unfold col_max. revert first.
  induction rest as [|z rest IH]; intros first; simpl.
  - apply elem_of_cons. by left.
  - specialize (IH (Z.max first z)).
    apply elem_of_cons in IH as [E|IH].
    + rewrite E. destruct (Z.max_spec first z) as [[_ ->]|[_ ->]].
      * apply elem_of_cons. right. apply elem_of_cons. by left.
      * apply elem_of_cons. by left.
    + apply elem_of_cons. right. apply elem_of_cons. by right.
Qed.

Global Instance date_key_inj : Inj (=) (=) date_key.
Proof. intros [[??]?] [[??]?] [= -> -> ->]. done. Qed.

Global Instance text_key_inj : Inj (=) (=) text_key.
Proof. intros [[??]?] [[??]?] [= -> -> ->]. done. Qed.

Global Instance iso_key_inj : Inj (=) (=) iso_key.
Proof.
  intros [[??]?] [[??]?]. unfold iso_key. simpl.
  intros [= -> -> ->%isoformat_inj]. done.
Qed.

Lemma map_dates_py_str_text (r : History.row string) :
  History.map_dates py_str (History.map_dates PyStr r) = r.
Proof. by destruct r. Qed.

Section Reconciler.

Variable now : datetime.
Variable genesys_df : list Genesys.row.
Variable history_df : list (History.row date).

Lemma elem_of_existing_keys k :
  k ∈ existing_keys history_df
  <-> k ∈ map iso_key (map History.key history_df).
Proof.
  unfold existing_keys. rewrite elem_of_list_to_set, map_map. done.
Qed.

Lemma surviving_rows_filter :
  surviving_rows now genesys_df history_df
  = List.filter
      (fun r => negb (bool_decide
                        (Candidate.key r ∈ existing_keys history_df)))
      (deduplicated_rows now genesys_df history_df).
Proof.
  unfold surviving_rows.
  destruct (deduplicated_rows now genesys_df history_df); done.
Qed.

Lemma surviving_rows_NoDup :
  NoDup (map Candidate.key (surviving_rows now genesys_df history_df)).
Proof.
  rewrite surviving_rows_filter. apply NoDup_map_filter.
  apply drop_duplicates_from_NoDup.
Qed.

Lemma surviving_rows_fresh r :
  r ∈ surviving_rows now genesys_df history_df ->
  Candidate.key r ∉ existing_keys history_df.
Proof.
  rewrite surviving_rows_filter, elem_of_List_filter.
  intros [_ H]. apply negb_true_iff, bool_decide_eq_false in H. done.
Qed.

(** A candidate that does not survive has its key in the ledger or is
    the duplicate of one that does. *)
Lemma candidate_key_accounted r :
  r ∈ candidate_rows now genesys_df history_df ->
  Candidate.key r ∈ existing_keys history_df
  \/ Candidate.key r
     ∈ map Candidate.key (surviving_rows now genesys_df history_df).
Proof.
  intros Hr.
  destruct (decide (Candidate.key r ∈ existing_keys history_df)) as [|Hn];
    [by left | right].
  apply (elem_of_map_2 Candidate.key) in Hr.
  apply (drop_duplicates_from_keys Candidate.key []) in Hr
    as [Hr|Hr]; [by apply elem_of_nil in Hr|].
  apply elem_of_map in Hr as (r' & E & Hr').
  rewrite surviving_rows_filter. apply elem_of_map. exists r'.
  split; [done|]. apply elem_of_List_filter. split; [done|].
  apply negb_true_iff, bool_decide_eq_false. by rewrite <- E.
Qed.

Lemma new_history_rows_zip :
  new_history_rows now genesys_df history_df
  = zip_with Candidate.with_id
      (range (max_id history_df + 1)
         (max_id history_df + 1
          + Z.of_nat (length (surviving_rows now genesys_df history_df))))
      (surviving_rows now genesys_df history_df).
Proof.
  unfold new_history_rows.
  replace (max_id history_df
           + Z.of_nat (length (surviving_rows now genesys_df history_df)) + 1)%Z
    with (max_id history_df + 1
          + Z.of_nat (length (surviving_rows now genesys_df history_df)))%Z
    by lia.
  destruct (surviving_rows now genesys_df history_df); [|done].
  simpl. by destruct (range _ _).
Qed.

Lemma new_history_rows_length :
  length (new_history_rows now genesys_df history_df)
  = length (surviving_rows now genesys_df history_df).
Proof.
  rewrite new_history_rows_zip, length_zip_with, range_length. lia.
Qed.

Lemma new_history_rows_ids :
  map History.id (new_history_rows now genesys_df history_df)
  = range (max_id history_df + 1)
      (max_id history_df + 1
       + Z.of_nat (length (surviving_rows now genesys_df history_df))).
Proof.
  rewrite new_history_rows_zip. apply zip_with_id_ids, range_length.
Qed.

Lemma new_history_rows_keys :
  map History.key (new_history_rows now genesys_df history_df)
  = map Candidate.key (surviving_rows now genesys_df history_df).
Proof.
  rewrite new_history_rows_zip. apply zip_with_id_keys, range_length.
Qed.

Lemma combined_history_split :
  combined_history_of now genesys_df history_df
  = (map (History.map_dates isoformat)
       (drop_duplicates History.key history_df)
     ++ new_history_rows now genesys_df history_df)%list.
Proof.
  unfold combined_history_of, concatenated_history, drop_duplicates.
  rewrite drop_duplicates_from_app.
  rewrite (drop_duplicates_from_map History.key History.key
             (History.map_dates PyDate) date_key [] history_df)
    by (apply _ || done).
  rewrite (drop_duplicates_from_id History.key _
             (map (History.map_dates PyStr) _)).
  - rewrite map_app, !map_map. f_equal.
    rewrite <- (map_id (new_history_rows now genesys_df history_df)) at 2.
    apply map_ext. intros r. apply map_dates_py_str_text.
  - rewrite map_map.
    change (fun x => History.key (History.map_dates PyStr x))
      with (fun x : History.row string => text_key (History.key x)).
    rewrite <- (map_map History.key text_key).
    apply (NoDup_fmap_2 text_key).
    rewrite new_history_rows_keys. apply surviving_rows_NoDup.
  - intros x (r & -> & _)%elem_of_map.
    rewrite app_nil_r, map_map.
    intros (h & E & _)%elem_of_map. discriminate E.
Qed.

End Reconciler.

(** ** Rows of the audit frame *)

Lemma audit_df_lookup now source_name genesys_df history_df i a :
  audit_df (run now source_name genesys_df history_df) !! i = Some a ->
  exists g, genesys_df !! i = Some g
            /\ a = audit_row now source_name history_df g.
Proof.
  simpl. rewrite audit_df_rows, lookup_map.
  destruct (genesys_df !! i) as [g|]; simpl; [|done].
  intros [= <-]. eauto.
Qed.

Lemma audit_df_lookup_row now source_name genesys_df history_df i g :
  genesys_df !! i = Some g ->
  audit_df (run now source_name genesys_df history_df) !! i
  = Some (audit_row now source_name history_df g).
Proof. intros H. simpl. by rewrite audit_df_rows, lookup_map, H. Qed.

Lemma elem_of_blocked_borrowers now history_df b :
  b ∈ blocked_borrowers now history_df
  <-> exists h, h ∈ history_df /\ History.borrower_id h = b
                /\ date_lt (today now) (History.allowed_again_at h).
Proof.
  unfold blocked_borrowers.
  rewrite elem_of_list_to_set, elem_of_map. split.
  - intros (h & -> & [Hlt Hin]%list_elem_of_filter). eauto.
  - intros (h & Hin & <- & Hlt). exists h. split; [done|].
    by apply list_elem_of_filter.
Qed.

Lemma length_chars s : length (chars s) = String.length s.
Proof. induction s as [|c s IH]; simpl; [done | by rewrite IH]. Qed.

Lemma length_text l : String.length (text l) = length l.
Proof. induction l as [|c l IH]; simpl; [done | by rewrite IH]. Qed.

Lemma length_last_n n s :
  String.length (last_n n s) = Nat.min n (String.length s).
Proof.
  unfold last_n. rewrite length_text, length_drop, length_chars. lia.
Qed.

Lemma phone_pass_iff_digits g :
  phone_pass g = true <-> (10 <= String.length (row_phone_full g))%nat.
Proof.
  unfold phone_pass, row_phone_10.
  rewrite Nat.eqb_eq, length_last_n. lia.
Qed.

(** ** C3 *)

(** C3. For every row of the audit frame, [drop_reason] is the reason of
    the first predicate that fails in the order cooldown, result, wrapup,
    phone, and ["selected"] when none fails; so a row failing cooldown and
    phone reads ["cooldown"], and a row failing only phone reads
    ["invalid_phone"]. *)
Theorem drop_reason_priority now source_name genesys_df history_df i a :
  audit_df (run now source_name genesys_df history_df) !! i = Some a ->
  Audit.drop_reason a
  = (if negb (Audit.filter_cooldown_pass a) then "cooldown"
     else if negb (Audit.filter_result_pass a) then "result"
     else if negb (Audit.filter_wrapup_pass a) then "wrapup"
     else if negb (Audit.filter_phone_pass a) then "invalid_phone"
     else "selected")
  /\ (Audit.filter_cooldown_pass a = false ->
      Audit.filter_phone_pass a = false ->
      Audit.drop_reason a = "cooldown")
  /\ (Audit.filter_cooldown_pass a = true ->
      Audit.filter_result_pass a = true ->
      Audit.filter_wrapup_pass a = true ->
      Audit.filter_phone_pass a = false ->
      Audit.drop_reason a = "invalid_phone").
Proof.
  intros (g & _ & ->)%audit_df_lookup. simpl. unfold row_drop_reason.
  destruct (cooldown_pass now history_df g), (result_pass g),
    (wrapup_pass g), (phone_pass g); simpl; repeat split; congruence.
Qed.

Lemma drop_reason_priority_witness :
  exists a,
    audit_df Example.out !! 5 = Some a
    /\ Audit.filter_cooldown_pass a = false
    /\ Audit.filter_phone_pass a = false
    /\ Audit.drop_reason a = "cooldown".
Proof.
  eexists. split; [vm_compute; reflexivity|].
  split; [reflexivity|]. split; [reflexivity|].
  refine (proj1 (proj2 (drop_reason_priority Example.now "telesales.csv"
           (Genesys.rows Example.genesys_file) Example.history_df 5 _ _))
           _ _); vm_compute; reflexivity.
Defined.

(** ** C4 *)

(** C4. For every row of the audit frame, [is_selected_final] is the
    conjunction of the four pass flags, and [drop_reason] is ["selected"]
    exactly when [is_selected_final] is true. *)
Theorem selected_is_conjunction now source_name genesys_df history_df i a :
  audit_df (run now source_name genesys_df history_df) !! i = Some a ->
  Audit.is_selected_final a
  = Audit.filter_cooldown_pass a && Audit.filter_result_pass a
    && Audit.filter_wrapup_pass a && Audit.filter_phone_pass a
  /\ (Audit.drop_reason a = "selected"
      <-> Audit.is_selected_final a = true).
Proof.
  intros (g & _ & ->)%audit_df_lookup. simpl.
  unfold row_drop_reason, row_selected.
  destruct (cooldown_pass now history_df g), (result_pass g),
    (wrapup_pass g), (phone_pass g); simpl; split; try done.
Qed.

Lemma selected_is_conjunction_witness :
  exists a,
    audit_df Example.out !! 0 = Some a
    /\ Audit.is_selected_final a = true
    /\ Audit.drop_reason a = "selected".
Proof.
  eexists. split; [vm_compute; reflexivity|].
  split; [reflexivity|].
  refine (proj2 (proj2 (selected_is_conjunction Example.now "telesales.csv"
           (Genesys.rows Example.genesys_file) Example.history_df 0 _ _))
           _); vm_compute; reflexivity.
Defined.

(** ** C1 *)

(** C1. The cooldown set holds exactly the borrower ids of the ledger rows
    whose [allowed_again_at] is strictly after the run's [today].  So a
    record whose borrower has ledger rows only with [allowed_again_at] on
    or before [today] passes the cooldown filter, and a record whose
    borrower has a ledger row with [allowed_again_at] one day after
    [today] fails it. *)
Theorem cooldown_cutoff_strict now source_name genesys_df history_df i a :
  audit_df (run now source_name genesys_df history_df) !! i = Some a ->
  (forall b,
      b ∈ blocked_borrowers now history_df
      <-> exists h, h ∈ history_df /\ History.borrower_id h = b
                    /\ date_lt (today now) (History.allowed_again_at h))
  /\ (Audit.filter_cooldown_pass a = false
      <-> Audit.borrower_id a ∈ blocked_borrowers now history_df)
  /\ ((forall h, h ∈ history_df ->
                 History.borrower_id h = Audit.borrower_id a ->
                 date_le (History.allowed_again_at h) (today now)) ->
      Audit.filter_cooldown_pass a = true)
  /\ ((exists h, h ∈ history_df
                 /\ History.borrower_id h = Audit.borrower_id a
                 /\ History.allowed_again_at h = add_days 1 (today now)) ->
      Audit.filter_cooldown_pass a = false).
Proof.
  intros (g & _ & ->)%audit_df_lookup. simpl. unfold cooldown_pass.
  split; [apply elem_of_blocked_borrowers|].
  split; [|split].
  - rewrite negb_false_iff, bool_decide_eq_true. done.
  - intros Hle. apply negb_true_iff, bool_decide_eq_false.
    intros (h & Hin & Hb & Hlt)%elem_of_blocked_borrowers.
    by apply (proj1 (date_le_not_lt _ _) (Hle h Hin Hb)).
  - intros (h & Hin & Hb & Ha).
    apply negb_false_iff, bool_decide_eq_true, elem_of_blocked_borrowers.
    exists h. split; [done|]. split; [done|].
    rewrite Ha. apply date_lt_next_day.
Qed.

(** In the example ledger the borrower of the first record was last
    allowed again today, and the borrower of the third tomorrow. *)
Lemma cooldown_cutoff_strict_witness :
  (exists a, audit_df Example.out !! 0 = Some a
             /\ Audit.borrower_id a = "1001"
             /\ Audit.filter_cooldown_pass a = true)
  /\ (exists a, audit_df Example.out !! 2 = Some a
                /\ Audit.borrower_id a = "1003"
                /\ Audit.filter_cooldown_pass a = false).
Proof.
  split.
  - eexists. split; [vm_compute; reflexivity|]. split; [reflexivity|].
    refine (proj1 (proj2 (proj2
      (cooldown_cutoff_strict Example.now "telesales.csv"
         (Genesys.rows Example.genesys_file) Example.history_df 0 _ _))) _);
      [vm_compute; reflexivity|].
    intros h Hin Hb.
    apply elem_of_cons in Hin as [->|Hin]; [discriminate Hb|].
    apply elem_of_cons in Hin as [->|Hin]; [reflexivity|].
    by apply elem_of_nil in Hin.
  - eexists. split; [vm_compute; reflexivity|]. split; [reflexivity|].
    refine (proj2 (proj2 (proj2
      (cooldown_cutoff_strict Example.now "telesales.csv"
         (Genesys.rows Example.genesys_file) Example.history_df 2 _ _))) _);
      [vm_compute; reflexivity|].
    eexists. split; [apply elem_of_cons; left; reflexivity|].
    split; reflexivity.
Defined.

(** ** C7 *)

(** C7. For every record, [phone_full] is the raw phone with every
    character that is not a digit removed, [phone_10] is its last ten
    characters, and the phone filter passes exactly when [phone_10] has
    length ten, which is when [phone_full] has at least ten digits.  The
    two phones of the specification normalize as it says. *)
Theorem phone_predicate now source_name genesys_df history_df i g a :
  genesys_df !! i = Some g ->
  audit_df (run now source_name genesys_df history_df) !! i = Some a ->
  Audit.phone_raw a = default "" (Genesys.phone g)
  /\ chars (Audit.phone_full a)
     = List.filter isdigit (chars (Audit.phone_raw a))
  /\ chars (Audit.phone_10 a)
     = drop (length (chars (Audit.phone_full a)) - 10)
         (chars (Audit.phone_full a))
  /\ (Audit.filter_phone_pass a = true
      <-> String.length (Audit.phone_10 a) = 10%nat)
  /\ (Audit.filter_phone_pass a = true
      <-> (10 <= String.length (Audit.phone_full a))%nat)
  /\ normalize_digits (Some "+52 (55) 1234-5678") = "525512345678"
  /\ last_n 10 "525512345678" = "5512345678"
  /\ String.length "5512345678" = 10%nat
  /\ (10 <=? String.length (normalize_digits (Some "12345")))%nat = false.
Proof.
  intros Hg Ha. rewrite (audit_df_lookup_row _ _ _ _ _ _ Hg) in Ha.
  injection Ha as <-. simpl.
  split; [unfold row_phone_raw; by destruct (Genesys.phone g)|].
  split; [unfold row_phone_full, normalize_digits, text, chars;
          by rewrite list_ascii_of_string_of_list_ascii|].
  split; [unfold row_phone_10, last_n, text, chars;
          by rewrite list_ascii_of_string_of_list_ascii|].
  split; [unfold phone_pass; apply Nat.eqb_eq|].
  split; [apply phone_pass_iff_digits|].
  repeat split; reflexivity.
Qed.

Lemma phone_predicate_witness :
  exists a b,
    audit_df Example.out !! 0 = Some a
    /\ audit_df Example.out !! 1 = Some b
    /\ Audit.phone_raw a = "+52 (55) 1234-5678"
    /\ Audit.phone_full a = "525512345678"
    /\ Audit.phone_10 a = "5512345678"
    /\ Audit.filter_phone_pass a = true
    /\ Audit.phone_raw b = "12345"
    /\ ~ Audit.filter_phone_pass b = true.
Proof.
  eexists. eexists.
  split; [vm_compute; reflexivity|]. split; [vm_compute; reflexivity|].
  split; [reflexivity|]. split; [reflexivity|]. split; [reflexivity|].
  split.
  - refine (proj2 (proj1 (proj2 (proj2 (proj2 (proj2
      (phone_predicate Example.now "telesales.csv"
         (Genesys.rows Example.genesys_file) Example.history_df 0
         Example.ana _ _ _)))))) _);
      first [vm_compute; reflexivity | vm_compute; lia].
  - split; [reflexivity|]. intros H.
    apply (proj1 (proj1 (proj2 (proj2 (proj2 (proj2
      (phone_predicate Example.now "telesales.csv"
         (Genesys.rows Example.genesys_file) Example.history_df 1
         Example.beto _ eq_refl eq_refl))))))) in H.
    vm_compute in H. lia.
Defined.

(** ** C9 *)

(** C9. The audit frame has one row per record of the export, in the
    order of the export.  The row of a record carries its identifiers,
    the phone at each stage, the first name, the four pass flags, each
    computed from the record alone whatever the others are, the selected
    flag, the drop reason, and the two dates, which are the empty text
    exactly when the record is not selected. *)
Theorem audit_complete now source_name genesys_df history_df :
  length (audit_df (run now source_name genesys_df history_df))
  = length genesys_df
  /\ forall i g,
      genesys_df !! i = Some g ->
      exists a,
        audit_df (run now source_name genesys_df history_df) !! i = Some a
        /\ Audit.source_filename a = source_name
        /\ Audit.campaign_run_at a = strftime_ts now
        /\ Audit.borrower_id a = strip (astype_str (Genesys.borrower_id g))
        /\ Audit.inin_outbound_id a
           = strip (astype_str (Genesys.inin_outbound_id g))
        /\ Audit.full_name a = Genesys.full_name g
        /\ Audit.phone_raw a = default "" (Genesys.phone g)
        /\ Audit.phone_full a = normalize_digits (Some (Audit.phone_raw a))
        /\ Audit.phone_10 a = last_n 10 (Audit.phone_full a)
        /\ Audit.first_name a = first_name (Genesys.full_name g)
        /\ Audit.filter_cooldown_pass a
           = negb (bool_decide
                     (Audit.borrower_id a
                      ∈ blocked_borrowers now history_df))
        /\ Audit.filter_result_pass a
           = (String.eqb (default "" (Genesys.last_result g)) ""
              || startswith "ININ-OUTBOUND"
                   (default "" (Genesys.last_result g)))
        /\ Audit.filter_wrapup_pass a
           = (String.eqb
                (lower (strip (default "" (Genesys.last_wrapup g)))) ""
              || bool_decide
                   (lower (strip (default "" (Genesys.last_wrapup g)))
                    ∈ ALLOWED_WRAPUPS))
        /\ Audit.filter_phone_pass a
           = Nat.eqb (String.length (Audit.phone_10 a)) 10
        /\ Audit.is_selected_final a
           = Audit.filter_cooldown_pass a && Audit.filter_result_pass a
             && Audit.filter_wrapup_pass a && Audit.filter_phone_pass a
        /\ Audit.drop_reason a
           ∈ ["selected"; "cooldown"; "result"; "wrapup"; "invalid_phone"]
        /\ (Audit.selected_at a = ""
            <-> Audit.is_selected_final a = false)
        /\ (Audit.allowed_again_at a = ""
            <-> Audit.is_selected_final a = false)
        /\ (Audit.is_selected_final a = true ->
            Audit.selected_at a = isoformat (today now)
            /\ Audit.allowed_again_at a
               = isoformat (add_days 7 (today now))).
Proof.
  split; [simpl; by rewrite audit_df_rows, length_map|].
  intros i g Hg. eexists. split; [by apply audit_df_lookup_row|]. simpl.
  unfold row_phone_raw, row_result, row_wrapup, row_selected_at,
    row_allowed_again_at, row_drop_reason, selected_at, allowed_again_at.
  repeat match goal with |- _ /\ _ => split end; try reflexivity.
  - by destruct (Genesys.phone g).
  - unfold result_pass, row_result. by destruct (Genesys.last_result g).
  - unfold wrapup_pass, row_wrapup. by destruct (Genesys.last_wrapup g).
  - destruct (cooldown_pass now history_df g), (result_pass g),
      (wrapup_pass g), (phone_pass g); simpl;
      repeat (first [ by apply elem_of_cons; left
                    | apply elem_of_cons; right ]).
  - destruct (row_selected now history_df g); [|done].
    split; [|done]. intros H. by destruct (isoformat_nonempty (today now)).
  - destruct (row_selected now history_df g); [|done].
    split; [|done]. intros H.
    by destruct (isoformat_nonempty (add_days 7 (today now))).
  - intros ->. done.
Qed.

Lemma audit_complete_witness :
  length (audit_df Example.out) = 6%nat
  /\ exists a, audit_df Example.out !! 3 = Some a
               /\ Audit.filter_result_pass a = false
               /\ Audit.filter_wrapup_pass a = false
               /\ Audit.filter_phone_pass a = true
               /\ Audit.selected_at a = "".
Proof.
  destruct (audit_complete Example.now "telesales.csv"
              (Genesys.rows Example.genesys_file) Example.history_df)
    as [Hlen Hrow].
  split; [exact Hlen|].
  destruct (Hrow 3%nat Example.dani eq_refl) as (a & Ha & Hfields).
  exists a. split; [exact Ha|].
  vm_compute in Ha. injection Ha as <-. repeat split; reflexivity.
Defined.

(** ** C10 *)

Lemma length_filter_ext {A} (p q : A -> bool) l :
  (forall x, p x = q x) ->
  length (List.filter p l) = length (List.filter q l).
Proof. intros H. by rewrite (List.filter_ext p q H). Qed.

Lemma length_filter_map {A B} (f : A -> B) (p : B -> bool) l :
  length (List.filter p (map f l))
  = length (List.filter (fun x => p (f x)) l).
Proof.
  induction l as [|x l IH]; simpl; [done|].
  destruct (p (f x)); simpl; by rewrite IH.
Qed.

Lemma length_List_filter_le {A} (p : A -> bool) l :
  (length (List.filter p l) <= length l)%nat.
Proof.
  induction l as [|x l IH]; simpl; [done|]. destruct (p x); simpl; lia.
Qed.

Lemma stage_counts_partition {A} (c r w p : A -> bool) l :
  (length (List.filter (fun x => negb (c x)) l)
   + length (List.filter (fun x => c x && negb (r x)) l)
   + length (List.filter (fun x => c x && r x && negb (w x)) l)
   + length (List.filter (fun x => c x && r x && w x && negb (p x)) l)
   + length (List.filter (fun x => c x && r x && w x && p x) l)
   = length l)%nat.
Proof.
  induction l as [|x l IH]; simpl; [done|].
  destruct (c x), (r x), (w x), (p x); simpl; lia.
Qed.

(** The number of rows of the audit frame with a given drop reason *)
Lemma count_drop_reason now source_name genesys_df history_df reason :
  length (List.filter (fun a => String.eqb (Audit.drop_reason a) reason)
            (audit_df (run now source_name genesys_df history_df)))
  = length (List.filter
              (fun g => String.eqb (row_drop_reason now history_df g) reason)
              genesys_df).
Proof. simpl. by rewrite audit_df_rows, length_filter_map. Qed.

(** C10. The four removal counters count the records by drop reason, so
    each record that is not selected is counted once, and with the
    selected count they add up to the number of records read.  The
    campaign has as many rows as records are selected, and the number of
    new ledger rows is at most that. *)
Theorem metrics_consistent now source_name genesys_df history_df :
  let out := run now source_name genesys_df history_df in
  let m := metrics out in
  let count reason :=
    length (List.filter (fun a => String.eqb (Audit.drop_reason a) reason)
              (audit_df out)) in
  Metrics.registros_entrada m = length genesys_df
  /\ Metrics.removidos_cooldown m = count "cooldown"
  /\ Metrics.removidos_result m = count "result"
  /\ Metrics.removidos_wrapup m = count "wrapup"
  /\ Metrics.removidos_phone m = count "invalid_phone"
  /\ Metrics.seleccionados_finales m = count "selected"
  /\ (Metrics.removidos_cooldown m + Metrics.removidos_result m
      + Metrics.removidos_wrapup m + Metrics.removidos_phone m
      + Metrics.seleccionados_finales m
      = Metrics.registros_entrada m)%nat
  /\ Metrics.registros_campana m = length (campaign_df out)
  /\ Metrics.registros_campana m = Metrics.seleccionados_finales m
  /\ Metrics.nuevos_en_historico m
     = length (new_history_rows now genesys_df history_df)
  /\ (Metrics.nuevos_en_historico m <= Metrics.seleccionados_finales m)%nat.
Proof.
  intros out m count. subst out m count. cbv beta zeta.
  rewrite !count_drop_reason. simpl.
  rewrite col_is_selected_final_rows, col_filter_cooldown_pass_rows,
    col_filter_result_pass_rows, col_filter_wrapup_pass_rows,
    col_filter_phone_pass_rows.
  autorewrite with columns. rewrite !msum_map.
  assert (Hcount : forall p q,
             (forall g, p g = q g) ->
             length (List.filter p genesys_df)
             = length (List.filter q genesys_df))
    by (intros; by apply length_filter_ext).
  split; [done|].
  split; [apply Hcount; intros g; unfold row_drop_reason;
          by destruct (cooldown_pass now history_df g), (result_pass g),
            (wrapup_pass g), (phone_pass g)|].
  split; [apply Hcount; intros g; unfold row_drop_reason;
          by destruct (cooldown_pass now history_df g), (result_pass g),
            (wrapup_pass g), (phone_pass g)|].
  split; [apply Hcount; intros g; unfold row_drop_reason;
          by destruct (cooldown_pass now history_df g), (result_pass g),
            (wrapup_pass g), (phone_pass g)|].
  split; [apply Hcount; intros g; unfold row_drop_reason;
          by destruct (cooldown_pass now history_df g), (result_pass g),
            (wrapup_pass g), (phone_pass g)|].
  split; [apply Hcount; intros g; unfold row_drop_reason, row_selected;
          by destruct (cooldown_pass now history_df g), (result_pass g),
            (wrapup_pass g), (phone_pass g)|].
  split; [apply (stage_counts_partition (cooldown_pass now history_df)
                   result_pass wrapup_pass phone_pass)|].
  split; [done|].
  split; [by rewrite campaign_df_rows, length_map|].
  split; [done|].
  rewrite new_history_rows_length, surviving_rows_filter.
  etrans; [apply length_List_filter_le|].
  etrans; [apply drop_duplicates_length_le|].
  by rewrite candidate_rows_rows, length_map.
Qed.

(** ** The updated ledger *)

Lemma drop_duplicates_id {A K} `{EqDecision K} (key : A -> K) l :
  NoDup (map key l) -> drop_duplicates key l = l.
Proof.
  intros H. apply drop_duplicates_from_id; [done|].
  intros x _ Hin. by apply elem_of_nil in Hin.
Qed.

Lemma keys_map_dates_iso (l : list (History.row date)) :
  map History.key (map (History.map_dates isoformat) l)
  = map iso_key (map History.key l).
Proof. by rewrite !map_map. Qed.

Section UpdatedLedger.

Variable now : datetime.
Variable genesys_df : list Genesys.row.
Variable history_df : list (History.row date).

Hypothesis history_keys_distinct : NoDup (map History.key history_df).

Lemma combined_history_append :
  combined_history_of now genesys_df history_df
  = (map (History.map_dates isoformat) history_df
     ++ new_history_rows now genesys_df history_df)%list.
Proof. by rewrite combined_history_split, drop_duplicates_id. Qed.

Lemma combined_history_keys :
  map History.key (combined_history_of now genesys_df history_df)
  = (map iso_key (map History.key history_df)
     ++ map Candidate.key (surviving_rows now genesys_df history_df))%list.
Proof.
  by rewrite combined_history_append, map_app, keys_map_dates_iso,
    new_history_rows_keys.
Qed.

Lemma combined_history_NoDup :
  NoDup (map History.key (combined_history_of now genesys_df history_df)).
Proof.
  rewrite combined_history_keys. apply NoDup_app. split; [|split].
  - by apply (NoDup_fmap_2 iso_key).
  - intros k Hk (r & -> & Hr)%elem_of_map.
    apply (surviving_rows_fresh _ _ _ _ Hr).
    by apply elem_of_existing_keys.
  - apply surviving_rows_NoDup.
Qed.

End UpdatedLedger.

(** ** C5 *)

(** C5. With [m] the largest id of the ledger, 0 for an empty ledger, and
    [k] the number of candidates that survive the two filters, the new
    rows are the survivors in their order, carrying the ids [m+1], ...,
    [m+k], each once.  No id of the ledger is among them, and the rows
    the ledger keeps come first in the updated ledger with the ids they
    had. *)
Theorem surrogate_ids now source_name genesys_df history_df :
  let m := max_id history_df in
  let survivors := surviving_rows now genesys_df history_df in
  let new := new_history_rows now genesys_df history_df in
  let k := length survivors in
  (history_df = [] -> m = 0%Z)
  /\ (forall h, h ∈ history_df -> (History.id h <= m)%Z)
  /\ (history_df <> [] -> exists h, h ∈ history_df /\ History.id h = m)
  /\ length new = k
  /\ map History.id new = map (fun j => (m + 1 + Z.of_nat j)%Z) (seq 0 k)
  /\ new = zip_with Candidate.with_id (map History.id new) survivors
  /\ (forall z, z ∈ map History.id new <-> (m + 1 <= z <= m + Z.of_nat k)%Z)
  /\ NoDup (map History.id new)
  /\ (forall h, h ∈ history_df -> History.id h ∉ map History.id new)
  /\ combined_history (run now source_name genesys_df history_df)
     = (map (History.map_dates isoformat)
          (drop_duplicates History.key history_df)
        ++ new)%list.
Proof.
  intros m survivors new k. subst m survivors new k.
  assert (Hmax : forall h, h ∈ history_df ->
                           (History.id h <= max_id history_df)%Z).
  { intros h Hin. unfold max_id. destruct history_df as [|h0 rest].
    - by apply elem_of_nil in Hin.
    - destruct (col_max_ge (History.id h0) (map History.id rest))
        as [H0 Hrest].
      apply elem_of_cons in Hin as [->|Hin]; [done|].
      rewrite Forall_forall in Hrest. apply Hrest.
      by apply elem_of_map_2. }
  assert (Hids : forall z,
             z ∈ map History.id (new_history_rows now genesys_df history_df)
             <-> (max_id history_df + 1 <= z
                  <= max_id history_df
                     + Z.of_nat (length (surviving_rows now genesys_df
                                           history_df)))%Z).
  { intros z. rewrite new_history_rows_ids, elem_of_range. lia. }
  split; [by intros ->|].
  split; [done|].
  split.
  { intros Hne. unfold max_id. destruct history_df as [|h0 rest]; [done|].
    pose proof (col_max_elem (History.id h0) (map History.id rest)) as Hin.
    change (History.id h0 :: map History.id rest)
      with (map (@History.id date) (h0 :: rest)) in Hin.
    apply elem_of_map in Hin as (h & E & Hin). eauto. }
  split; [apply new_history_rows_length|].
  split; [by rewrite new_history_rows_ids, range_seq|].
  split; [by rewrite new_history_rows_ids at 1; apply new_history_rows_zip|].
  split; [done|].
  split; [rewrite new_history_rows_ids; apply NoDup_range|].
  split; [|apply combined_history_split].
  intros h Hin Hz. apply Hids in Hz. specialize (Hmax h Hin). lia.
Qed.

(** ** C6 *)

(** C6. When the key triples of the ledger are pairwise distinct, the
    updated ledger is the ledger, every row as it was and in its order,
    followed by the new rows, and its key triples are pairwise
    distinct. *)
Theorem ledger_append_only now source_name genesys_df history_df :
  NoDup (map History.key history_df) ->
  combined_history (run now source_name genesys_df history_df)
  = (map (History.map_dates isoformat) history_df
     ++ new_history_rows now genesys_df history_df)%list
  /\ NoDup (map History.key
              (combined_history (run now source_name genesys_df history_df))).
Proof.
  intros Hd. simpl. split.
  - by apply combined_history_append.
  - by apply combined_history_NoDup.
Qed.

Lemma ledger_append_only_witness :
  NoDup (map History.key Example.history_df)
  /\ combined_history Example.out
     = [ History.Row 7 "OB-0" "1003" "2024-02-28" "2024-03-06";
         History.Row 4 "OB-0" "1001" "2024-02-27" "2024-03-05";
         History.Row 8 "OB-1" "1001" "2024-03-05" "2024-03-12" ].
Proof.
  assert (Hd : NoDup (map History.key Example.history_df)).
  { apply NoDup_cons. split.
    - intros Hin. apply elem_of_cons in Hin as [E|Hin]; [discriminate E|].
      by apply elem_of_nil in Hin.
    - apply NoDup_cons. split; [apply not_elem_of_nil | apply NoDup_nil_2]. }
  split; [exact Hd|]. unfold Example.out.
  rewrite (proj1 (ledger_append_only Example.now "telesales.csv"
                    (Genesys.rows Example.genesys_file)
                    Example.history_df Hd)).
  vm_compute. reflexivity.
Defined.

(** ** C2 *)











(** ** C8 *)

Lemma isna_sum_assigned_pos {A} n (parsed : list (option A)) i :
  (i < n)%nat -> mjoin (parsed !! i) = None ->
  (0 < isna_sum (assigned n parsed))%nat.
Proof.
  intros Hi Hnone. unfold isna_sum, assigned.
  assert (Hin : In (@None A)
                  (List.filter
                     (fun v => match v with None => true | Some _ => false end)
                     (map (fun i => mjoin (parsed !! i)) (seq 0 n)))).
  { apply filter_In. split; [|done]. apply in_map_iff. exists i.
    split; [done|]. apply in_seq. lia. }
  destruct (List.filter _ _); [destruct Hin | simpl; lia].
Qed.

(** C8, as amended.  Without an upload the loader returns the empty
    ledger.  With an upload that has the five columns and a row whose
    [selected_at] or [allowed_again_at] does not parse, it raises a
    [ValueError] with one fixed message that names the two columns and
    carries no count, no row is dropped to let the load go through, and
    [compute_outputs] raises too, returning no artifact. *)
Theorem load_history_df_contract to_datetime to_numeric f i :
  missing_columns HISTORY_COLUMNS (normalize_columns (HistoryCsv.columns f))
  = [] ->
  (i < length (HistoryCsv.rows f))%nat ->
  mjoin (to_datetime (map HistoryCsv.selected_at (HistoryCsv.rows f)) !! i)
  = None
  \/ mjoin (to_datetime (map HistoryCsv.allowed_again_at (HistoryCsv.rows f))
            !! i)
     = None ->
  load_history_df to_datetime to_numeric None = Ok []
  /\ load_history_df to_datetime to_numeric (Some f)
     = Raise (ValueError invalid_dates_message)
  /\ (forall now genesys_file,
         exists e,
           compute_outputs to_datetime to_numeric now genesys_file (Some f)
           = Raise e).
Proof.
  intros Hcols Hi Hbad.
  assert (Hload : load_history_df to_datetime to_numeric (Some f)
                  = Raise (ValueError invalid_dates_message)).
  { unfold load_history_df. rewrite Hcols. simpl.
    destruct Hbad as [Hbad|Hbad];
      apply (isna_sum_assigned_pos _ _ _ Hi), Nat.ltb_lt in Hbad;
      rewrite Hbad; [done | by rewrite orb_true_r]. }
  split; [done|]. split; [done|].
  intros now genesys_file. unfold compute_outputs.
  destruct (0 <? _)%nat; [by eexists|]. rewrite Hload. by eexists.
Qed.

Lemma load_history_df_contract_witness :
  load_history_df iso_to_datetime decimal_to_numeric
    (Some Example.bad_history_file_1)
  = Raise (ValueError invalid_dates_message)
  /\ exists e,
      compute_outputs iso_to_datetime decimal_to_numeric Example.now
        Example.genesys_file (Some Example.bad_history_file_1)
      = Raise e.
Proof.
  destruct (load_history_df_contract iso_to_datetime decimal_to_numeric
              Example.bad_history_file_1 0%nat)
    as (_ & Hload & Hrun).
  - vm_compute; reflexivity.
  - vm_compute; lia.
  - left. vm_compute; reflexivity.
  - split; [exact Hload | apply Hrun].
Defined.

(** C8, as stated, fails: the error does not report the number of
    invalid rows.  An upload with one unreadable row and an upload with
    two raise the same exception, whose message holds no digit. *)
Lemma load_history_df_error_reports_no_count :
  load_history_df iso_to_datetime decimal_to_numeric
    (Some Example.bad_history_file_1)
  = Raise (ValueError invalid_dates_message)
  /\ load_history_df iso_to_datetime decimal_to_numeric
       (Some Example.bad_history_file_2)
     = Raise (ValueError invalid_dates_message)
  /\ invalid_date_rows iso_to_datetime Example.bad_history_file_1 = 1%nat
  /\ invalid_date_rows iso_to_datetime Example.bad_history_file_2 = 2%nat
  /\ List.filter isdigit (chars invalid_dates_message) = [].
Proof. repeat split; vm_compute; reflexivity. Qed.

(** * Further properties of the module *)

(** ** Stripping *)

Lemma chars_text l : chars (text l) = l.
Proof. apply list_ascii_of_string_of_list_ascii. Qed.

Lemma text_chars s : text (chars s) = s.
Proof. apply string_of_list_ascii_of_string. Qed.

Section DropWhile.

Variable p : ascii -> bool.

Lemma drop_while_all l :
  Forall (fun c => p c = true) l -> drop_while p l = [].
Proof.
  induction 1 as [|c l Hc _ IH]; simpl; [done | by rewrite Hc].
Qed.

Lemma drop_while_app_all pre l :
  Forall (fun c => p c = true) pre ->
  drop_while p (pre ++ l) = drop_while p l.
Proof.
  induction 1 as [|c pre Hc _ IH]; simpl; [done | by rewrite Hc].
Qed.

Lemma drop_while_head l c l' : drop_while p l = c :: l' -> p c = false.
Proof.
  induction l as [|x l IH]; simpl; [done|].
  destruct (p x) eqn:Hx; [done|]. by intros [= <- _].
Qed.

Lemma drop_while_split l :
  exists pre, l = (pre ++ drop_while p l)%list
              /\ Forall (fun c => p c = true) pre.
Proof.
  induction l as [|c l (pre & E & Hpre)]; simpl.
  - by exists [].
  - destruct (p c) eqn:Hc.
    + exists (c :: pre). split; [simpl; by rewrite <- E | by constructor].
    + by exists [].
Qed.

Lemma drop_while_snoc_keep l c :
  p c = false -> drop_while p (l ++ [c]) = (drop_while p l ++ [c])%list.
Proof.
  intros Hc. induction l as [|x l IH]; simpl; [by rewrite Hc|].
  by destruct (p x).
Qed.

Lemma drop_while_idem l : drop_while p (drop_while p l) = drop_while p l.
Proof.
  induction l as [|x l IH]; simpl; [done|].
  destruct (p x) eqn:Hx; [done|]. simpl. by rewrite Hx.
Qed.

Lemma Forall_drop_while l :
  Forall (fun c => p c = true) (drop_while p l)
  <-> Forall (fun c => p c = true) l.
Proof.
  induction l as [|x l IH]; simpl; [done|].
  destruct (p x) eqn:Hx; [|done].
  rewrite IH. split; [by constructor | by inversion 1].
Qed.

Lemma rstrip_cons_keep c l :
  p c = false -> rstrip_by p (c :: l) = c :: rstrip_by p l.
Proof.
  intros Hc. unfold rstrip_by. simpl.
  by rewrite drop_while_snoc_keep, rev_app_distr.
Qed.

Lemma rstrip_app_all l post :
  Forall (fun c => p c = true) post ->
  rstrip_by p (l ++ post) = rstrip_by p l.
Proof.
  intros H. unfold rstrip_by. rewrite rev_app_distr.
  rewrite drop_while_app_all; [done|].
  apply Forall_forall. intros c Hc. rewrite Forall_forall in H.
  apply H. apply list_elem_of_In. apply list_elem_of_In in Hc.
  by apply in_rev.
Qed.

Lemma rstrip_split l :
  exists post, l = (rstrip_by p l ++ post)%list
               /\ Forall (fun c => p c = true) post.
Proof.
  destruct (drop_while_split (rev l)) as (pre & E & Hpre).
  exists (rev pre). split.
  - unfold rstrip_by. rewrite <- rev_app_distr, <- E. by rewrite rev_involutive.
  - apply Forall_forall. intros c Hc. rewrite Forall_forall in Hpre.
    apply Hpre. apply list_elem_of_In. apply list_elem_of_In in Hc.
    by apply in_rev.
Qed.

Lemma rstrip_idem l : rstrip_by p (rstrip_by p l) = rstrip_by p l.
Proof.
  unfold rstrip_by. by rewrite rev_involutive, drop_while_idem.
Qed.

Lemma Forall_rev_iff (P : ascii -> Prop) l : Forall P (rev l) <-> Forall P l.
Proof.
  rewrite !Forall_forall. split; intros H c Hc; apply H.
  - apply list_elem_of_In. apply list_elem_of_In in Hc.
    apply (proj1 (in_rev l c)). exact Hc.
  - apply list_elem_of_In. apply list_elem_of_In in Hc.
    apply (proj2 (in_rev l c)). exact Hc.
Qed.

Lemma Forall_rstrip l :
  Forall (fun c => p c = true) (rstrip_by p l)
  <-> Forall (fun c => p c = true) l.
Proof.
  unfold rstrip_by.
  by rewrite Forall_rev_iff, Forall_drop_while, Forall_rev_iff.
Qed.

(** Stripping the right end leaves a stripped left end as it is. *)
Lemma lstrip_rstrip_lstrip l :
  lstrip_by p (rstrip_by p (lstrip_by p l)) = rstrip_by p (lstrip_by p l).
Proof.
  unfold lstrip_by. destruct (drop_while p l) as [|c l'] eqn:E.
  - done.
  - pose proof (drop_while_head _ _ _ E) as Hc.
    rewrite (rstrip_cons_keep _ _ Hc). simpl. by rewrite Hc.
Qed.

Lemma strip_by_idem s : strip_by p (strip_by p s) = strip_by p s.
Proof.
  unfold strip_by. rewrite chars_text. f_equal.
  by rewrite lstrip_rstrip_lstrip, rstrip_idem.
Qed.

Lemma rstrip_lstrip_app_all l post :
  Forall (fun c => p c = true) post ->
  rstrip_by p (lstrip_by p (l ++ post)) = rstrip_by p (lstrip_by p l).
Proof.
  intros Hpost. unfold lstrip_by. induction l as [|c l IH]; simpl.
  - by rewrite drop_while_all.
  - destruct (p c) eqn:Hc; [done|].
    by apply (rstrip_app_all (c :: l) post).
Qed.

Lemma strip_by_padded pre l post :
  Forall (fun c => p c = true) pre ->
  Forall (fun c => p c = true) post ->
  strip_by p (text (pre ++ l ++ post)) = strip_by p (text l).
Proof.
  intros Hpre Hpost. unfold strip_by. rewrite !chars_text. f_equal.
  unfold lstrip_by at 1. rewrite drop_while_app_all by done.
  by apply rstrip_lstrip_app_all.
Qed.

(** What stripping removes is a run of [p] at each end. *)
Lemma strip_by_split s :
  exists pre post,
    chars s = (pre ++ chars (strip_by p s) ++ post)%list
    /\ Forall (fun c => p c = true) pre
    /\ Forall (fun c => p c = true) post.
Proof.
  unfold strip_by. rewrite chars_text.
  destruct (drop_while_split (chars s)) as (pre & E & Hpre).
  destruct (rstrip_split (lstrip_by p (chars s))) as (post & E' & Hpost).
  exists pre, post. split; [|done].
  rewrite <- E'. exact E.
Qed.

End DropWhile.

(** ** Case folding *)

Lemma isspace_lower_char c : isspace (lower_char c) = isspace c.
Proof. by destruct c as [[] [] [] [] [] [] [] []]. Qed.

Lemma lower_char_idem c : lower_char (lower_char c) = lower_char c.
Proof. by destruct c as [[] [] [] [] [] [] [] []]. Qed.

Lemma drop_while_isspace_lower l :
  drop_while isspace (map lower_char l)
  = map lower_char (drop_while isspace l).
Proof.
  induction l as [|c l IH]; simpl; [done|].
  rewrite isspace_lower_char. by destruct (isspace c).
Qed.

Lemma strip_lower s : strip (lower s) = lower (strip s).
Proof.
  unfold strip, strip_by, lower, lstrip_by, rstrip_by.
  rewrite !chars_text. f_equal.
  by rewrite drop_while_isspace_lower, <- map_rev, drop_while_isspace_lower,
    map_rev.
Qed.

Lemma lower_idem s : lower (lower s) = lower s.
Proof.
  unfold lower. rewrite chars_text, map_map. f_equal.
  apply map_ext. intros c. apply lower_char_idem.
Qed.

Lemma startswith_spec p s :
  startswith p s = true <-> exists rest, s = p ++ rest.
Proof.
  unfold startswith. revert s. induction p as [|a p IH]; intros s; simpl.
  - destruct s; split; eauto.
  - destruct s as [|b s]; simpl.
    + split; [done | by intros [rest ?]].
    + destruct (ascii_dec a b) as [->|Hne].
      * rewrite IH. split; intros [rest E]; exists rest.
        -- by rewrite E.
        -- by injection E.
      * split; [done|]. intros [rest E]. by injection E.
Qed.

(** ** The result and wrapup filters *)

(** X1. The wrapup filter does not see case or surrounding blanks: the
    flag of a record is the flag of any record whose wrapup is the same
    text in another case, with blanks added at either end.  A wrapup
    that is missing or all blanks passes. *)
Theorem wrapup_filter_insensitive now source_name genesys_df history_df
    now' source_name' genesys_df' history_df' i j g g' a a' w w' pre post :
  genesys_df !! i = Some g ->
  genesys_df' !! j = Some g' ->
  audit_df (run now source_name genesys_df history_df) !! i = Some a ->
  audit_df (run now' source_name' genesys_df' history_df') !! j = Some a' ->
  default "" (Genesys.last_wrapup g) = w ->
  Genesys.last_wrapup g' = Some (text (pre ++ chars w' ++ post)) ->
  Forall (fun c => isspace c = true) pre ->
  Forall (fun c => isspace c = true) post ->
  lower w' = lower w ->
  Audit.filter_wrapup_pass a' = Audit.filter_wrapup_pass a
  /\ (Forall (fun c => isspace c = true) (chars w) ->
      Audit.filter_wrapup_pass a = true).
Proof.
  intros Hg Hg' Ha Ha' Hw Hw' Hpre Hpost Hlow.
  rewrite (audit_df_lookup_row _ _ _ _ _ _ Hg) in Ha.
  rewrite (audit_df_lookup_row _ _ _ _ _ _ Hg') in Ha'.
  injection Ha as <-. injection Ha' as <-. simpl.
  assert (Erow : row_wrapup g = lower (strip w)).
  { unfold row_wrapup. rewrite <- Hw. by destruct (Genesys.last_wrapup g). }
  assert (Erow' : row_wrapup g' = lower (strip w)).
  { unfold row_wrapup. rewrite Hw'. simpl. unfold strip.
    rewrite strip_by_padded by done. rewrite text_chars.
    fold (strip w'). by rewrite <- !strip_lower, Hlow. }
  unfold wrapup_pass. rewrite Erow, Erow'. split; [done|].
  intros Hblank. unfold strip, strip_by, lstrip_by.
  rewrite (drop_while_all _ _ Hblank). done.
Qed.

Lemma wrapup_filter_insensitive_witness :
  exists a b,
    audit_df Example.out !! 0 = Some a
    /\ audit_df
         (run Example.now "other.csv"
            [Genesys.Row None None None None None (Some "call back")] [])
       !! 0 = Some b
    /\ Audit.filter_wrapup_pass a = Audit.filter_wrapup_pass b.
Proof.
  eexists. eexists.
  split; [vm_compute; reflexivity|]. split; [vm_compute; reflexivity|].
  refine (proj1 (wrapup_filter_insensitive
            Example.now "other.csv"
            [Genesys.Row None None None None None (Some "call back")] []
            Example.now "telesales.csv" (Genesys.rows Example.genesys_file)
            Example.history_df 0 0 _ Example.ana _ _ "call back" "CALL BACK"
            (chars " ") (chars " ") eq_refl eq_refl eq_refl eq_refl eq_refl
            eq_refl _ _ eq_refl)).
  - repeat constructor.
  - repeat constructor.
Defined.

(** X2. The result filter reads the cell as it is, a missing cell as the
    empty text: the flag is true exactly when that text is empty or
    begins with ININ-OUTBOUND.  It is not trimmed, so a result made of
    blanks only fails. *)
Theorem result_filter_exact now source_name genesys_df history_df i g a r :
  genesys_df !! i = Some g ->
  audit_df (run now source_name genesys_df history_df) !! i = Some a ->
  default "" (Genesys.last_result g) = r ->
  (Audit.filter_result_pass a = true
   <-> r = "" \/ exists rest, r = "ININ-OUTBOUND" ++ rest)
  /\ (r <> "" -> Forall (fun c => isspace c = true) (chars r) ->
      Audit.filter_result_pass a = false).
Proof.
  intros Hg Ha Hr.
  rewrite (audit_df_lookup_row _ _ _ _ _ _ Hg) in Ha.
  injection Ha as <-. simpl.
  assert (Erow : row_result g = r).
  { unfold row_result. rewrite <- Hr. by destruct (Genesys.last_result g). }
  unfold result_pass. rewrite Erow.
  assert (Hiff : (r =? "") || startswith "ININ-OUTBOUND" r = true
                 <-> r = "" \/ exists rest, r = "ININ-OUTBOUND" ++ rest).
  { by rewrite orb_true_iff, String.eqb_eq, startswith_spec. }
  split; [exact Hiff|].
  intros Hne Hblank. apply not_true_is_false. rewrite Hiff.
  intros [E|[rest E]]; [done|].
  rewrite E in Hblank. simpl in Hblank. by inversion Hblank.
Qed.

Lemma result_filter_exact_witness :
  exists a,
    audit_df Example.out !! 1 = Some a
    /\ Audit.filter_result_pass a = true.
Proof.
  eexists. split; [vm_compute; reflexivity|].
  refine (proj2 (proj1 (result_filter_exact Example.now "telesales.csv"
            (Genesys.rows Example.genesys_file) Example.history_df 1
            Example.beto _ "ININ-OUTBOUND-BUSY" eq_refl eq_refl eq_refl)) _).
  right. by exists "-BUSY".
Defined.

(** ** [normalize_digits] and [first_name] *)

Lemma Forall_List_filter {A} (p : A -> bool) l :
  Forall (fun x => p x = true) (List.filter p l).
Proof.
  apply Forall_forall. intros x Hx.
  by apply elem_of_List_filter in Hx as [_ Hx].
Qed.

Lemma List_filter_idem {A} (p : A -> bool) l :
  List.filter p (List.filter p l) = List.filter p l.
Proof.
  induction l as [|x l IH]; simpl; [done|].
  destruct (p x) eqn:Hx; simpl; [by rewrite Hx, IH | done].
Qed.

Lemma List_filter_all {A} (p : A -> bool) l :
  Forall (fun x => p x = true) l -> List.filter p l = l.
Proof.
  induction 1 as [|x l Hx _ IH]; simpl; [done | by rewrite Hx, IH].
Qed.

Lemma List_filter_sublist {A} (p : A -> bool) l :
  sublist (List.filter p l) l.
Proof.
  induction l as [|x l IH]; simpl; [constructor|].
  destruct (p x); by constructor.
Qed.

Lemma List_filter_map {A B} (f : A -> B) (p : B -> bool) l :
  List.filter p (map f l) = map f (List.filter (fun x => p (f x)) l).
Proof.
  induction l as [|x l IH]; simpl; [done|].
  destruct (p (f x)); simpl; by rewrite IH.
Qed.

(** X3. [normalize_digits] keeps the digits of the text in their order
    and nothing else: its result holds only digits, is a subsequence of
    the text, is left unchanged by a second pass, and a text of digits
    is returned as it is.  A missing value gives the empty text. *)
Theorem normalize_digits_keeps_digits (value : cell) :
  Forall (fun c => isdigit c = true) (chars (normalize_digits value))
  /\ sublist (chars (normalize_digits value)) (chars (default "" value))
  /\ normalize_digits (Some (normalize_digits value))
     = normalize_digits value
  /\ (Forall (fun c => isdigit c = true) (chars (default "" value)) ->
      normalize_digits value = default "" value)
  /\ (value = None -> normalize_digits value = "").
Proof.
  destruct value as [s|]; simpl.
  - rewrite !chars_text. split; [apply Forall_List_filter|].
    split; [apply List_filter_sublist|].
    split; [by rewrite List_filter_idem|].
    split; [|done]. intros H. by rewrite List_filter_all, text_chars.
  - repeat split; try done; constructor.
Qed.

Lemma split_go_nil cur l :
  split_go cur l = [] ->
  cur = [] /\ Forall (fun c => isspace c = true) l.
Proof.
  revert cur. induction l as [|c l IH]; intros cur; simpl.
  - destruct cur; [done | discriminate].
  - destruct (isspace c) eqn:Hc.
    + destruct cur; [|discriminate].
      intros [_ H]%IH. split; [done | by constructor].
    + intros [E _]%IH. discriminate E.
Qed.

Lemma split_go_first cur l t ts :
  split_go cur l = t :: ts ->
  exists pre w rest,
    l = (pre ++ w ++ rest)%list
    /\ (cur = [] \/ pre = [])
    /\ Forall (fun c => isspace c = true) pre
    /\ chars t = (rev cur ++ w)%list
    /\ Forall (fun c => isspace c = false) w
    /\ (rest = [] \/ exists c r, rest = c :: r /\ isspace c = true)
    /\ (rev cur ++ w)%list <> [].
Proof.
  assert (Hsnoc : forall (x : ascii) (k k' : list ascii),
             (k ++ x :: k')%list <> []) by (intros x [|? ?] k'; discriminate).
  revert cur. induction l as [|c l IH]; intros cur; simpl.
  - destruct cur as [|x cur]; [discriminate|]. intros [= <- _].
    exists [], [], []. rewrite chars_text. simpl. rewrite !app_nil_r.
    repeat split; auto.
  - destruct (isspace c) eqn:Hc.
    + destruct cur as [|x cur].
      * intros (pre & w & rest & -> & _ & Hpre & Ht & Hw & Hrest & Hne)%IH.
        exists (c :: pre), w, rest. repeat split; auto.
      * intros [= <- _]. exists [], [], (c :: l).
        rewrite chars_text. simpl. rewrite !app_nil_r.
        repeat split; auto. right. eauto.
    + intros (pre & w & rest & -> & [E| ->] & Hpre & Ht & Hw & Hrest & Hne)%IH;
        [discriminate E|].
      exists [], (c :: w), rest. simpl in *.
      rewrite <- app_assoc in Ht. simpl in Ht.
      repeat split; auto.
Qed.

(** X4. [first_name] is the first word of the name: it holds no blank,
    it is empty exactly when the name is missing or all blanks, and
    otherwise the name is blanks, then the first name, then nothing or a
    blank and the rest. *)
Theorem first_name_first_word (value : cell) :
  Forall (fun c => isspace c = false) (chars (first_name value))
  /\ (first_name value = ""
      <-> Forall (fun c => isspace c = true) (chars (default "" value)))
  /\ (first_name value <> "" ->
      exists pre rest,
        chars (default "" value)
        = (pre ++ chars (first_name value) ++ rest)%list
        /\ Forall (fun c => isspace c = true) pre
        /\ (rest = [] \/ exists c r, rest = c :: r /\ isspace c = true)).
Proof.
  destruct value as [s|]; simpl; [|by repeat split; try constructor].
  destruct (strip_by_split isspace s) as (pre0 & post0 & Es & Hpre0 & Hpost0).
  fold (strip s) in Es. unfold split.
  destruct (split_go [] (chars (strip s))) as [|t ts] eqn:Esplit.
  - apply split_go_nil in Esplit as [_ Hblank].
    split; [constructor|]. split; [|done]. split; [|done]. intros _.
    rewrite Es. by rewrite !Forall_app.
  - apply split_go_first in Esplit
      as (pre & w & rest & El & _ & Hpre & Ht & Hw & Hrest & Hne).
    simpl in Ht, Hne. rewrite El in Es. rewrite Ht.
    split; [done|]. split.
    + split.
      * intros ->. done.
      * intros Hall. rewrite Es, !Forall_app in Hall.
        destruct Hall as (_ & (_ & Hall & _) & _).
        destruct w as [|c w]; [done|].
        inversion Hw; inversion Hall; congruence.
    + intros _. exists (pre0 ++ pre)%list, (rest ++ post0)%list.
      split; [by rewrite Es, <- !app_assoc|].
      split; [by apply Forall_app|].
      destruct Hrest as [->|(c & r & -> & Hc)]; simpl.
      * destruct Hpost0 as [|c r Hc _]; [by left | right; eauto].
      * right. eauto.
Qed.

(** ** The campaign and the new ledger rows *)

Lemma strip_idem s : strip (strip s) = strip s.
Proof. apply strip_by_idem. Qed.

Lemma drop_duplicates_from_sublist {A K} `{EqDecision K}
    (key : A -> K) seen l :
  sublist (drop_duplicates_from key seen l) l.
Proof.
  revert seen. induction l as [|x l IH]; intros seen; simpl; [constructor|].
  case_bool_decide; by constructor.
Qed.

Lemma sublist_map {A B} (f : A -> B) l k :
  sublist l k -> sublist (map f l) (map f k).
Proof. induction 1; simpl; by constructor. Qed.

Lemma row_phone_10_digits g :
  Forall (fun c => isdigit c = true) (chars (row_phone_10 g)).
Proof.
  unfold row_phone_10, last_n, row_phone_full, normalize_digits.
  rewrite !chars_text. apply Forall_drop, Forall_List_filter.
Qed.

Lemma row_selected_phone g now history_df :
  row_selected now history_df g = true ->
  String.length (row_phone_10 g) = 10%nat.
Proof.
  unfold row_selected, phone_pass. rewrite !andb_true_iff, Nat.eqb_eq. tauto.
Qed.

(** X5. The campaign is the selected rows of the audit, in their order:
    one row per selected record with country code 52, the ten-character
    phone and the first name of that record.  Every campaign phone is
    ten digits. *)
Theorem campaign_projection now source_name genesys_df history_df :
  let out := run now source_name genesys_df history_df in
  campaign_df out
  = map (fun a =>
           Campaign.Row "52" (Audit.phone_10 a) (Audit.first_name a))
      (List.filter Audit.is_selected_final (audit_df out))
  /\ (forall c, c ∈ campaign_df out ->
        Campaign.country_code c = "52"
        /\ String.length (Campaign.phone c) = 10%nat
        /\ Forall (fun x => isdigit x = true) (chars (Campaign.phone c))).
Proof.
  simpl. rewrite campaign_df_rows, audit_df_rows, List_filter_map, map_map.
  split; [done|].
  intros c (g & -> & [_ Hsel]%elem_of_List_filter)%elem_of_map. simpl.
  split; [done|]. split.
  - by apply (row_selected_phone g now history_df).
  - apply row_phone_10_digits.
Qed.

Lemma candidate_key_selected now history_df g :
  row_selected now history_df g = true ->
  Candidate.key (candidate_row now history_df g)
  = (row_inin_outbound_id g, row_borrower_id g, isoformat (today now)).
Proof.
  intros Hsel. unfold Candidate.key, candidate_row, row_selected_at. simpl.
  rewrite Hsel. unfold row_inin_outbound_id, row_borrower_id.
  by rewrite !strip_idem.
Qed.

Lemma combined_history_keys_split now genesys_df history_df :
  map History.key (combined_history_of now genesys_df history_df)
  = (map iso_key (map History.key (drop_duplicates History.key history_df))
     ++ map Candidate.key (surviving_rows now genesys_df history_df))%list.
Proof.
  by rewrite combined_history_split, map_app, keys_map_dates_iso,
    new_history_rows_keys.
Qed.

Lemma drop_duplicates_keeps_keys {A K} `{EqDecision K} (key : A -> K) l k :
  k ∈ map key l <-> k ∈ map key (drop_duplicates key l).
Proof.
  split.
  - intros Hk. apply (drop_duplicates_from_keys key []) in Hk as [Hk|Hk];
      [by apply elem_of_nil in Hk | done].
  - intros (x & -> & [Hx _]%drop_duplicates_from_elem)%elem_of_map.
    by apply elem_of_map_2.
Qed.

(** X6. Every selected record is in the returned ledger: the ledger has
    a row with the outbound id and borrower id the audit shows for the
    record and with today as [selected_at]. *)
Theorem selected_recorded_in_ledger now source_name genesys_df history_df
    i a :
  audit_df (run now source_name genesys_df history_df) !! i = Some a ->
  Audit.is_selected_final a = true ->
  (Audit.inin_outbound_id a, Audit.borrower_id a, isoformat (today now))
  ∈ map History.key
      (combined_history (run now source_name genesys_df history_df)).
Proof.
  intros (g & Hg & ->)%audit_df_lookup Hsel. simpl in *.
  rewrite combined_history_keys_split.
  rewrite <- (candidate_key_selected now history_df g Hsel).
  assert (Hcand : candidate_row now history_df g
                  ∈ candidate_rows now genesys_df history_df).
  { rewrite candidate_rows_rows. apply elem_of_map_2, elem_of_List_filter.
    split; [by eapply list_elem_of_lookup_2 | done]. }
  apply elem_of_app.
  destruct (candidate_key_accounted _ _ _ _ Hcand) as [Hk|Hk]; [left|by right].
  apply elem_of_existing_keys in Hk.
  apply elem_of_map in Hk as (k & -> & Hk).
  apply elem_of_map_2.
  exact (proj1 (drop_duplicates_keeps_keys History.key history_df k) Hk).
Qed.

Lemma selected_recorded_in_ledger_witness :
  ("OB-1", "1001", "2024-03-05")
  ∈ map History.key (combined_history Example.out).
Proof.
  apply (selected_recorded_in_ledger Example.now "telesales.csv"
           (Genesys.rows Example.genesys_file) Example.history_df 4
           (audit_row Example.now "telesales.csv" Example.history_df
              Example.ana));
    vm_compute; reflexivity.
Defined.

Lemma new_history_rows_origin now genesys_df history_df r :
  r ∈ new_history_rows now genesys_df history_df ->
  exists g v,
    g ∈ genesys_df
    /\ row_selected now history_df g = true
    /\ r = History.Row v (row_inin_outbound_id g) (row_borrower_id g)
             (isoformat (today now)) (isoformat (add_days 7 (today now))).
Proof.
  rewrite new_history_rows_zip.
  intros (v & c & -> & _ & Hc)%elem_of_zip_with.
  rewrite surviving_rows_filter in Hc.
  apply elem_of_List_filter in Hc as [Hc _].
  apply drop_duplicates_from_elem in Hc as [Hc _].
  rewrite candidate_rows_rows in Hc.
  apply elem_of_map in Hc as (g & -> & [Hg Hsel]%elem_of_List_filter).
  exists g, v. split; [done|]. split; [done|].
  unfold Candidate.with_id, candidate_row, row_selected_at,
    row_allowed_again_at. simpl. rewrite Hsel.
  unfold row_inin_outbound_id, row_borrower_id. by rewrite !strip_idem.
Qed.

(** X7. Every row the run adds to the ledger comes from a selected
    record: it carries the outbound id and the borrower id of an audit
    row with [is_selected_final] true, today as [selected_at] and the
    seventh day after today as [allowed_again_at]. *)
Theorem new_rows_from_selected now source_name genesys_df history_df r :
  r ∈ new_history_rows now genesys_df history_df ->
  History.selected_at r = isoformat (today now)
  /\ History.allowed_again_at r = isoformat (add_days 7 (today now))
  /\ exists a,
      a ∈ audit_df (run now source_name genesys_df history_df)
      /\ Audit.is_selected_final a = true
      /\ Audit.inin_outbound_id a = History.inin_outbound_id r
      /\ Audit.borrower_id a = History.borrower_id r.
Proof.
  intros (g & v & Hg & Hsel & ->)%new_history_rows_origin.
  split; [done|]. split; [done|].
  exists (audit_row now source_name history_df g). simpl.
  rewrite audit_df_rows. split; [by apply elem_of_map_2 | done].
Qed.

Lemma new_rows_from_selected_witness :
  History.Row 8 "OB-1" "1001" "2024-03-05" "2024-03-12"
  ∈ new_history_rows Example.now (Genesys.rows Example.genesys_file)
      Example.history_df
  /\ add_days 7 (today Example.now) = Date 2024 3 12.
Proof.
  assert (H : History.Row 8 "OB-1" "1001" "2024-03-05" "2024-03-12"
              ∈ new_history_rows Example.now
                  (Genesys.rows Example.genesys_file) Example.history_df)
    by (vm_compute; apply elem_of_cons; by left).
  split; [exact H|].
  apply isoformat_inj. symmetry.
  exact (proj1 (proj2 (new_rows_from_selected Example.now "telesales.csv"
                         _ _ _ H))).
Defined.

(** ** The returned ledger *)

(** X8. Whatever the starting ledger, the key triples of the returned
    ledger are pairwise distinct, every key of the starting ledger is
    still there, and the rows kept from the starting ledger are a
    subsequence of it, each as it was, placed before the new rows. *)
Theorem returned_ledger_keys_distinct now source_name genesys_df history_df :
  let ledger :=
    combined_history (run now source_name genesys_df history_df) in
  NoDup (map History.key ledger)
  /\ (forall h, h ∈ history_df ->
        iso_key (History.key h) ∈ map History.key ledger)
  /\ exists kept,
      sublist kept history_df
      /\ ledger
         = (map (History.map_dates isoformat) kept
            ++ new_history_rows now genesys_df history_df)%list.
Proof.
  simpl. split; [|split].
  - rewrite combined_history_keys_split. apply NoDup_app. split; [|split].
    + apply (NoDup_fmap_2 iso_key). apply drop_duplicates_from_NoDup.
    + intros k (k0 & -> & Hk0)%elem_of_map (r & E & Hr)%elem_of_map.
      apply (surviving_rows_fresh _ _ _ _ Hr). rewrite <- E.
      apply elem_of_existing_keys, elem_of_map_2.
      by apply drop_duplicates_keeps_keys.
    + apply surviving_rows_NoDup.
  - intros h Hh. rewrite combined_history_keys_split. apply elem_of_app.
    left. apply elem_of_map_2.
    apply (proj1 (drop_duplicates_keeps_keys History.key history_df _)).
    by apply elem_of_map_2.
  - exists (drop_duplicates History.key history_df).
    split; [apply drop_duplicates_from_sublist | apply combined_history_split].
Qed.

Lemma max_id_bound history_df (h : History.row date) :
  h ∈ history_df -> (History.id h <= max_id history_df)%Z.
Proof.
  intros Hin. unfold max_id. destruct history_df as [|h0 rest].
  - by apply elem_of_nil in Hin.
  - destruct (col_max_ge (History.id h0) (map History.id rest))
      as [H0 Hrest].
    apply elem_of_cons in Hin as [->|Hin]; [done|].
    rewrite Forall_forall in Hrest. apply Hrest. by apply elem_of_map_2.
Qed.

(** X9. When the ids of the starting ledger are pairwise distinct, so
    are the ids of the returned ledger. *)
Theorem returned_ledger_ids_distinct now source_name genesys_df history_df :
  NoDup (map History.id history_df) ->
  NoDup (map History.id
           (combined_history (run now source_name genesys_df history_df))).
Proof.
  intros Hd. simpl. rewrite combined_history_split, map_app, map_map.
  apply NoDup_app. split; [|split].
  - apply (sublist_NoDup _ (map History.id history_df)); [done|].
    apply (sublist_map (@History.id date)), drop_duplicates_from_sublist.
  - intros z (h & -> & Hh)%elem_of_map Hz.
    apply drop_duplicates_from_elem in Hh as [Hh _].
    rewrite new_history_rows_ids, elem_of_range in Hz.
    pose proof (max_id_bound _ _ Hh). simpl in *. lia.
  - rewrite new_history_rows_ids. apply NoDup_range.
Qed.

Lemma returned_ledger_ids_distinct_witness :
  NoDup (map History.id Example.history_df)
  /\ NoDup (map History.id (combined_history Example.out)).
Proof.
  assert (Hd : NoDup (map History.id Example.history_df)).
  { apply NoDup_cons. split.
    - intros Hin. apply elem_of_cons in Hin as [E|Hin]; [discriminate E|].
      by apply elem_of_nil in Hin.
    - apply NoDup_cons. split; [apply not_elem_of_nil | apply NoDup_nil_2]. }
  split; [exact Hd|].
  exact (returned_ledger_ids_distinct Example.now "telesales.csv"
           (Genesys.rows Example.genesys_file) Example.history_df Hd).
Defined.

(** ** The cooldown window *)

Lemma date_lt_trans a b c : date_lt a b -> date_lt b c -> date_lt a c.
Proof. rewrite !date_lt_spec. lia. Qed.

Lemma date_lt_add_days k n d :
  (k < n)%nat -> date_lt (add_days k d) (add_days n d).
Proof.
  induction n as [|n IH]; intros Hk; [lia|].
  change (add_days (S n) d) with (next_day (add_days n d)).
  destruct (decide (k = n)) as [->|Hne].
  - apply date_lt_next_day.
  - eapply date_lt_trans; [apply IH; lia | apply date_lt_next_day].
Qed.

(** X10. A row added today keeps its borrower in cooldown for the six
    days that follow: in a run on day today + k, k below 7, over a
    ledger that holds the row, every record of that borrower fails the
    cooldown filter.  On the seventh day the row no longer blocks. *)
Theorem cooldown_window now genesys_df history_df r
    now' source_name' genesys_df' history_df' h i a k :
  r ∈ new_history_rows now genesys_df history_df ->
  h ∈ history_df' ->
  History.map_dates isoformat h = r ->
  audit_df (run now' source_name' genesys_df' history_df') !! i = Some a ->
  Audit.borrower_id a = History.borrower_id r ->
  today now' = add_days k (today now) ->
  (k < 7)%nat ->
  Audit.filter_cooldown_pass a = false
  /\ ~ date_lt (add_days 7 (today now)) (History.allowed_again_at h).
Proof.
  intros (g & v & _ & _ & ->)%new_history_rows_origin Hh Er
    (g' & _ & ->)%audit_df_lookup Hb Hday Hk.
  injection Er as _ _ Eb _ Ea. apply isoformat_inj in Ea.
  change (History.allowed_again_at h = add_days 7 (today now)) in Ea.
  simpl in Hb. split.
  - simpl. unfold cooldown_pass.
    apply negb_false_iff, bool_decide_eq_true, elem_of_blocked_borrowers.
    exists h. split; [done|]. split; [congruence|].
    rewrite Hday, Ea. by apply date_lt_add_days.
  - rewrite Ea. apply date_lt_irrefl.
Qed.

Lemma cooldown_window_witness :
  exists a,
    audit_df (run (DateTime (Date 2024 3 11) 8 0 0) "next.csv"
                [Example.ana] Example.history_df_after) !! 0 = Some a
    /\ Audit.filter_cooldown_pass a = false.
Proof.
  eexists. split; [vm_compute; reflexivity|].
  refine (proj1 (cooldown_window Example.now
            (Genesys.rows Example.genesys_file) Example.history_df
            (History.Row 8 "OB-1" "1001" "2024-03-05" "2024-03-12")
            (DateTime (Date 2024 3 11) 8 0 0) "next.csv" [Example.ana]
            Example.history_df_after
            (History.Row 8 "OB-1" "1001" (Date 2024 3 5) (Date 2024 3 12))
            0 _ 6 _ _ eq_refl _ _ eq_refl _)).
  - vm_compute. apply elem_of_cons. by left.
  - do 2 (apply elem_of_cons; right). apply elem_of_cons. by left.
  - vm_compute; reflexivity.
  - reflexivity.
  - lia.
Defined.

(** ** The loader *)

Lemma iloc_assigned {A} n (parsed : list (option A)) i :
  (i < n)%nat -> iloc None (assigned n parsed) i = mjoin (parsed !! i).
Proof.
  intros Hi. unfold assigned.
  apply (iloc_map None (fun i => mjoin (parsed !! i)) (seq 0 n) i i).
  apply lookup_seq. split; [done | lia].
Qed.

Lemma isna_sum_zero {A} (col : list (option A)) :
  isna_sum col = 0%nat <-> Forall is_Some col.
Proof.
  unfold isna_sum. induction col as [|[x|] col IH]; simpl.
  - split; [constructor | done].
  - rewrite IH. split; [by constructor | by inversion 1].
  - split; [done|]. inversion 1 as [|? ? [? ?]]. done.
Qed.

Lemma isna_sum_assigned_zero {A} n (parsed : list (option A)) :
  isna_sum (assigned n parsed) = 0%nat
  <-> forall i, (i < n)%nat -> is_Some (mjoin (parsed !! i)).
Proof.
  rewrite isna_sum_zero, Forall_forall. unfold assigned. split.
  - intros H i Hi. apply H, elem_of_map. exists i. split; [done|].
    apply elem_of_seq. lia.
  - intros H x (i & -> & Hi)%elem_of_map. apply H.
    apply elem_of_seq in Hi. lia.
Qed.

Lemma ltb_0_false n : (0 <? n)%nat = false <-> n = 0%nat.
Proof. rewrite Nat.ltb_ge. lia. Qed.

Section LoaderProperties.

Variable to_datetime : list cell -> list (option date).
Variable to_numeric : list cell -> list (option Z).

(** The three columns of an upload as the parsers return them *)
Let parsed_id (f : HistoryCsv.file) (i : nat) : option Z :=
  mjoin (to_numeric (map HistoryCsv.id (HistoryCsv.rows f)) !! i).
Let parsed_selected_at (f : HistoryCsv.file) (i : nat) : option date :=
  mjoin (to_datetime (map HistoryCsv.selected_at (HistoryCsv.rows f)) !! i).
Let parsed_allowed_again_at (f : HistoryCsv.file) (i : nat) : option date :=
  mjoin (to_datetime (map HistoryCsv.allowed_again_at (HistoryCsv.rows f))
         !! i).

Lemma load_history_df_Ok_inv f l :
  load_history_df to_datetime to_numeric (Some f) = Ok l ->
  missing_columns HISTORY_COLUMNS (normalize_columns (HistoryCsv.columns f))
  = []
  /\ (forall i, (i < length (HistoryCsv.rows f))%nat ->
        is_Some (parsed_selected_at f i)
        /\ is_Some (parsed_allowed_again_at f i)
        /\ is_Some (parsed_id f i))
  /\ l = map (fun i =>
                History.Row
                  (default 0%Z (parsed_id f i))
                  (strip (astype_str
                     (iloc None (map HistoryCsv.inin_outbound_id
                                   (HistoryCsv.rows f)) i)))
                  (strip (astype_str
                     (iloc None (map HistoryCsv.borrower_id
                                   (HistoryCsv.rows f)) i)))
                  (default (Date 0 0 0) (parsed_selected_at f i))
                  (default (Date 0 0 0) (parsed_allowed_again_at f i)))
         (seq 0 (length (HistoryCsv.rows f))).
Proof.
  unfold load_history_df, parsed_id, parsed_selected_at,
    parsed_allowed_again_at.
  destruct (0 <? length (missing_columns _ _))%nat eqn:Hm; [done|].
  apply ltb_0_false, length_zero_iff_nil in Hm.
  destruct (_ || _) eqn:Hd; [done|].
  apply orb_false_iff in Hd as [Hs Ha].
  apply ltb_0_false in Hs, Ha.
  pose proof (proj1 (isna_sum_assigned_zero _ _) Hs) as Hs'.
  pose proof (proj1 (isna_sum_assigned_zero _ _) Ha) as Ha'.
  destruct (0 <? isna_sum _)%nat eqn:Hi; [done|].
  apply ltb_0_false in Hi.
  pose proof (proj1 (isna_sum_assigned_zero _ _) Hi) as Hi'.
  intros [= <-]. split; [done|]. split; [by auto|].
  apply map_ext_in. intros i Hin. apply in_seq in Hin.
  rewrite !iloc_assigned by lia. done.
Qed.

(** X11. When the loader returns a ledger, the upload had the five
    columns, and the ledger has one row per row of the upload, in the
    same order: the row holds the id and the two dates the parsers read
    from it, and its outbound id and borrower id with the surrounding
    blanks removed.  No row is dropped and none is made up. *)
Theorem load_history_df_rows f l :
  load_history_df to_datetime to_numeric (Some f) = Ok l ->
  missing_columns HISTORY_COLUMNS (normalize_columns (HistoryCsv.columns f))
  = []
  /\ length l = length (HistoryCsv.rows f)
  /\ forall i r,
      HistoryCsv.rows f !! i = Some r ->
      exists z d1 d2,
        parsed_id f i = Some z
        /\ parsed_selected_at f i = Some d1
        /\ parsed_allowed_again_at f i = Some d2
        /\ l !! i
           = Some (History.Row z
                     (strip (astype_str (HistoryCsv.inin_outbound_id r)))
                     (strip (astype_str (HistoryCsv.borrower_id r)))
                     d1 d2).
Proof.
  intros (Hm & Hparsed & ->)%load_history_df_Ok_inv.
  split; [done|]. split; [by rewrite length_map, length_seq|].
  intros i r Hr.
  assert (Hi : (i < length (HistoryCsv.rows f))%nat)
    by (by eapply lookup_lt_Some).
  destruct (Hparsed i Hi) as ([d1 E1] & [d2 E2] & [z Ez]).
  exists z, d1, d2. split; [done|]. split; [done|]. split; [done|].
  rewrite lookup_map.
  rewrite (proj2 (lookup_seq 0 (length (HistoryCsv.rows f)) i i))
    by (split; [done | lia]).
  simpl. rewrite E1, E2, Ez, !(iloc_map _ _ _ _ _ Hr). done.
Qed.

(** X12. An upload with the five columns in which every date and every
    id parses is accepted. *)
Theorem load_history_df_accepts f :
  missing_columns HISTORY_COLUMNS (normalize_columns (HistoryCsv.columns f))
  = [] ->
  (forall i, (i < length (HistoryCsv.rows f))%nat ->
     is_Some (parsed_selected_at f i)
     /\ is_Some (parsed_allowed_again_at f i)
     /\ is_Some (parsed_id f i)) ->
  exists l, load_history_df to_datetime to_numeric (Some f) = Ok l
            /\ length l = length (HistoryCsv.rows f).
Proof.
  intros Hm Hparsed. unfold load_history_df. rewrite Hm. simpl.
  rewrite (proj2 (ltb_0_false _)
             (proj2 (isna_sum_assigned_zero _ _)
                (fun i Hi => proj1 (Hparsed i Hi)))).
  rewrite (proj2 (ltb_0_false _)
             (proj2 (isna_sum_assigned_zero _ _)
                (fun i Hi => proj1 (proj2 (Hparsed i Hi))))).
  rewrite (proj2 (ltb_0_false _)
             (proj2 (isna_sum_assigned_zero _ _)
                (fun i Hi => proj2 (proj2 (Hparsed i Hi))))).
  simpl. eexists. split; [done|]. by rewrite length_map, length_seq.
Qed.

(** X13. An upload that lacks one of the five columns is refused for
    that, whatever its rows hold: the error lists the labels of
    [HISTORY_COLUMNS] that are not among the normalized labels of the
    upload, in the order of [HISTORY_COLUMNS]. *)
Theorem load_history_df_missing_columns f missing :
  missing_columns HISTORY_COLUMNS (normalize_columns (HistoryCsv.columns f))
  = missing ->
  missing <> [] ->
  load_history_df to_datetime to_numeric (Some f)
  = Raise (ValueError
             ("El archivo historico no tiene el formato esperado. "
              ++ "Columnas faltantes: " ++ repr_list missing))
  /\ sublist missing HISTORY_COLUMNS
  /\ (forall c, c ∈ missing
                <-> c ∈ HISTORY_COLUMNS
                    /\ c ∉ normalize_columns (HistoryCsv.columns f)).
Proof.
  intros Hm Hne. split; [|split].
  - unfold load_history_df. rewrite Hm.
    destruct missing; [done|]. done.
  - rewrite <- Hm. apply List_filter_sublist.
  - intros c. rewrite <- Hm. unfold missing_columns.
    rewrite elem_of_List_filter, negb_true_iff, bool_decide_eq_false. done.
Qed.

(** X14. An upload with the five columns whose dates all parse and with
    an id that does not is refused with the message about the id
    column. *)
Theorem load_history_df_invalid_id f i :
  missing_columns HISTORY_COLUMNS (normalize_columns (HistoryCsv.columns f))
  = [] ->
  (forall j, (j < length (HistoryCsv.rows f))%nat ->
     is_Some (parsed_selected_at f j)
     /\ is_Some (parsed_allowed_again_at f j)) ->
  (i < length (HistoryCsv.rows f))%nat ->
  parsed_id f i = None ->
  load_history_df to_datetime to_numeric (Some f)
  = Raise (ValueError invalid_id_message).
Proof.
  intros Hm Hparsed Hi Hid. unfold load_history_df. rewrite Hm. simpl.
  rewrite (proj2 (ltb_0_false _)
             (proj2 (isna_sum_assigned_zero _ _)
                (fun i Hi => proj1 (Hparsed i Hi)))).
  rewrite (proj2 (ltb_0_false _)
             (proj2 (isna_sum_assigned_zero _ _)
                (fun i Hi => proj2 (Hparsed i Hi)))).
  simpl.
  by rewrite (proj2 (Nat.ltb_lt _ _) (isna_sum_assigned_pos _ _ _ Hi Hid)).
Qed.

(** X15. An upload with the five columns and no row loads as the empty
    ledger, as no upload does, whatever the parsers are. *)
Theorem load_history_df_no_rows f :
  missing_columns HISTORY_COLUMNS (normalize_columns (HistoryCsv.columns f))
  = [] ->
  HistoryCsv.rows f = [] ->
  load_history_df to_datetime to_numeric (Some f) = Ok []
  /\ load_history_df to_datetime to_numeric (Some f)
     = load_history_df to_datetime to_numeric None.
Proof.
  intros Hm Hrows. unfold load_history_df. by rewrite Hm, Hrows.
Qed.

End LoaderProperties.

Lemma load_history_df_rows_witness :
  load_history_df iso_to_datetime decimal_to_numeric
    (Some Example.history_file) = Ok Example.history_df
  /\ length Example.history_df = 2%nat.
Proof.
  assert (H : load_history_df iso_to_datetime decimal_to_numeric
                (Some Example.history_file) = Ok Example.history_df)
    by (vm_compute; reflexivity).
  split; [exact H|].
  exact (proj1 (proj2 (load_history_df_rows iso_to_datetime
                         decimal_to_numeric Example.history_file
                         Example.history_df H))).
Defined.

Lemma load_history_df_accepts_witness :
  exists l, load_history_df iso_to_datetime decimal_to_numeric
              (Some Example.history_file) = Ok l
            /\ length l = 2%nat.
Proof.
  apply (load_history_df_accepts iso_to_datetime decimal_to_numeric
           Example.history_file).
  - vm_compute; reflexivity.
  - intros [|[|i]] Hi; [vm_compute; repeat split; eauto ..|].
    simpl in Hi. lia.
Defined.

Lemma load_history_df_missing_columns_witness :
  load_history_df iso_to_datetime decimal_to_numeric
    (Some (HistoryCsv.File [" id "; "borrower_id"; "selected_at"]
             [HistoryCsv.Row (Some "1") None (Some "1001")
                (Some "not a date") None]))
  = Raise (ValueError
             ("El archivo historico no tiene el formato esperado. "
              ++ "Columnas faltantes: "
              ++ "['inin_outbound_id', 'allowed_again_at']")).
Proof.
  refine (proj1 (load_history_df_missing_columns iso_to_datetime
                   decimal_to_numeric _
                   ["inin_outbound_id"; "allowed_again_at"] _ _)).
  - vm_compute; reflexivity.
  - discriminate.
Defined.

Lemma load_history_df_invalid_id_witness :
  load_history_df iso_to_datetime decimal_to_numeric
    (Some (HistoryCsv.File HISTORY_COLUMNS
             [HistoryCsv.Row (Some "x1") (Some "OB-0") (Some "1001")
                (Some "2024-02-27") (Some "2024-03-05")]))
  = Raise (ValueError invalid_id_message).
Proof.
  apply (load_history_df_invalid_id iso_to_datetime decimal_to_numeric
           _ 0%nat).
  - vm_compute; reflexivity.
  - intros [|j] Hj; [vm_compute; repeat split; eauto|]. simpl in Hj. lia.
  - simpl; lia.
  - vm_compute; reflexivity.
Defined.

Lemma load_history_df_no_rows_witness :
  load_history_df iso_to_datetime decimal_to_numeric
    (Some (HistoryCsv.File HISTORY_COLUMNS [])) = Ok [].
Proof.
  refine (proj1 (load_history_df_no_rows iso_to_datetime decimal_to_numeric
                   (HistoryCsv.File HISTORY_COLUMNS []) _ _)).
  - vm_compute; reflexivity.
  - reflexivity.
Defined.

(** ** [compute_outputs] as a whole *)

(** X16. [compute_outputs] checks the export first: when it lacks a
    required column the run fails with the list of the missing labels,
    whatever the ledger upload is.  It returns frames exactly when the
    export has the six columns and the loader accepts the upload, and
    the frames are then those of the run over the loaded ledger. *)
Theorem compute_outputs_cases to_datetime to_numeric now genesys_file :
  let missing :=
    missing_columns REQUIRED_GENESYS_COLUMNS
      (normalize_columns (Genesys.columns genesys_file)) in
  (missing <> [] ->
   forall history_file,
     compute_outputs to_datetime to_numeric now genesys_file history_file
     = Raise (ValueError
                ("El archivo Genesys no contiene todas las columnas requeridas. "
                 ++ "Faltan: " ++ repr_list missing)))
  /\ (forall history_file out,
        compute_outputs to_datetime to_numeric now genesys_file history_file
        = Ok out
        <-> missing = []
            /\ exists history_df,
                load_history_df to_datetime to_numeric history_file
                = Ok history_df
                /\ out = run now (Genesys.name genesys_file)
                           (Genesys.rows genesys_file) history_df).
Proof.
  intros missing. subst missing. unfold compute_outputs.
  destruct (missing_columns _ _) as [|c missing]; simpl.
  - split; [done|]. intros history_file out.
    destruct (load_history_df _ _ history_file) as [history_df|e].
    + split.
      * intros [= <-]. eauto.
      * intros (_ & h & [= <-] & ->). done.
    + split; [done|]. by intros (_ & h & ? & _).
  - split; [done|]. intros history_file out. split; [done|].
    by intros [? _].
Qed.

(** X17. A run without a ledger upload over an export with the six
    columns succeeds; nobody is in cooldown, and the returned ledger is
    the new rows alone, numbered from 1. *)
Theorem first_run_without_history to_datetime to_numeric now genesys_file :
  missing_columns REQUIRED_GENESYS_COLUMNS
    (normalize_columns (Genesys.columns genesys_file)) = [] ->
  exists out,
    compute_outputs to_datetime to_numeric now genesys_file None = Ok out
    /\ (forall a, a ∈ audit_df out -> Audit.filter_cooldown_pass a = true)
    /\ combined_history out
       = new_history_rows now (Genesys.rows genesys_file) []
    /\ map History.id (combined_history out)
       = map (fun j => Z.of_nat (S j))
           (seq 0 (length (combined_history out)))
    /\ Metrics.nuevos_en_historico (metrics out)
       = length (combined_history out).
Proof.
  intros Hm. unfold compute_outputs. rewrite Hm. simpl.
  eexists. split; [done|]. simpl.
  assert (Hledger : combined_history_of now (Genesys.rows genesys_file) []
                    = new_history_rows now (Genesys.rows genesys_file) [])
    by (by rewrite combined_history_split).
  split; [|split; [done|split; [|by rewrite Hledger]]].
  - rewrite audit_df_rows. intros a (g & -> & _)%elem_of_map. simpl.
    unfold cooldown_pass. apply negb_true_iff, bool_decide_eq_false.
    intros (h & Hh & _)%elem_of_blocked_borrowers.
    by apply elem_of_nil in Hh.
  - rewrite Hledger, new_history_rows_ids, new_history_rows_length, range_seq.
    apply map_ext. intros j. simpl. lia.
Qed.

Lemma first_run_without_history_witness :
  exists out,
    compute_outputs iso_to_datetime decimal_to_numeric Example.now
      Example.genesys_file None = Ok out
    /\ map History.id (combined_history out) = [1%Z; 2%Z].
Proof.
  destruct (first_run_without_history iso_to_datetime decimal_to_numeric
              Example.now Example.genesys_file)
    as (out & Hout & _ & _ & Hids & _); [vm_compute; reflexivity|].
  exists out. split; [exact Hout|].
  vm_compute in Hout. injection Hout as <-. vm_compute. reflexivity.
Defined.

(** X18. When no record is selected, and so for an export without
    records, the campaign is empty, no row is added, and the returned
    ledger is the starting ledger without the rows that repeat an
    earlier key. *)
Theorem nothing_selected now source_name genesys_df history_df :
  let out := run now source_name genesys_df history_df in
  Metrics.seleccionados_finales (metrics out) = 0%nat ->
  campaign_df out = []
  /\ new_history_rows now genesys_df history_df = []
  /\ Metrics.nuevos_en_historico (metrics out) = 0%nat
  /\ combined_history out
     = map (History.map_dates isoformat)
         (drop_duplicates History.key history_df).
Proof.
  simpl. rewrite col_is_selected_final_rows, msum_map.
  intros Hsel. apply length_zero_iff_nil in Hsel.
  assert (Hcand : candidate_rows now genesys_df history_df = [])
    by (by rewrite candidate_rows_rows, Hsel).
  assert (Hnew : new_history_rows now genesys_df history_df = []).
  { unfold new_history_rows, surviving_rows, deduplicated_rows.
    by rewrite Hcand. }
  split; [by rewrite campaign_df_rows, Hsel|].
  split; [done|]. split; [by rewrite Hnew|].
  by rewrite combined_history_split, Hnew, app_nil_r.
Qed.

Lemma nothing_selected_witness :
  combined_history (run Example.now "empty.csv" [] Example.history_df)
  = map (History.map_dates isoformat) Example.history_df.
Proof.
  exact (proj2 (proj2 (proj2
    (nothing_selected Example.now "empty.csv" [] Example.history_df
       eq_refl)))).
Defined.

(** ** Column labels *)

(** X19. Blanks around a column label do not count: two headers whose
    labels differ only by blanks added at either end normalize to the
    same labels, so the loader answers the same for both. *)
Theorem header_blank_padding to_datetime to_numeric columns columns' rows :
  Forall2 (fun c' c =>
             exists pre post,
               Forall (fun x => isspace x = true) pre
               /\ Forall (fun x => isspace x = true) post
               /\ chars c' = (pre ++ chars c ++ post)%list)
    columns' columns ->
  normalize_columns columns' = normalize_columns columns
  /\ load_history_df to_datetime to_numeric
       (Some (HistoryCsv.File columns' rows))
     = load_history_df to_datetime to_numeric
         (Some (HistoryCsv.File columns rows)).
Proof.
  intros H.
  assert (E : normalize_columns columns' = normalize_columns columns).
  { induction H as [|c' c cs' cs (pre & post & Hpre & Hpost & Ec) _ IH];
      simpl; [done|].
    rewrite IH. f_equal. do 2 f_equal.
    rewrite <- (text_chars c'), Ec. unfold strip.
    by rewrite strip_by_padded, text_chars. }
  split; [done|]. unfold load_history_df. simpl. by rewrite E.
Qed.

Lemma header_blank_padding_witness :
  normalize_columns [" id"; "borrower_id  "]
  = normalize_columns ["id"; "borrower_id"].
Proof.
  refine (proj1 (header_blank_padding iso_to_datetime decimal_to_numeric
                   ["id"; "borrower_id"] [" id"; "borrower_id  "] [] _)).
  constructor.
  - exists (chars " "), []. repeat split; repeat constructor.
  - constructor; [|constructor].
    exists [], (chars "  "). repeat split; repeat constructor.
Defined.

(** ** The archive *)

Lemma chars_append a b : chars (a ++ b) = (chars a ++ chars b)%list.
Proof. induction a as [|c a IH]; simpl; [done | by rewrite IH]. Qed.

Lemma lower_fixed s :
  Forall (fun c => lower_char c = c) (chars s) -> lower s = s.
Proof.
  intros H. unfold lower. rewrite <- (text_chars s) at 2. f_equal.
  induction H as [|c l Hc _ IH]; simpl; [done | by rewrite Hc, IH].
Qed.

Lemma string_of_uint_lower_fixed d :
  Forall (fun c => lower_char c = c) (chars (NilEmpty.string_of_uint d)).
Proof. induction d; simpl; by constructor. Qed.

Lemma pad_lower_fixed k n :
  Forall (fun c => lower_char c = c) (chars (pad k n)).
Proof.
  unfold pad, dec. generalize (k - String.length
    (NilEmpty.string_of_uint (Nat.to_uint n)))%nat. intros j.
  induction j as [|j IH]; simpl.
  - apply string_of_uint_lower_fixed.
  - by constructor.
Qed.

Lemma strftime_dmy_lower now : lower (strftime_dmy now) = strftime_dmy now.
Proof.
  apply lower_fixed. unfold strftime_dmy.
  rewrite !chars_append, !Forall_app. simpl.
  repeat split; try apply pad_lower_fixed; by repeat constructor.
Qed.

(** X20. The archive built from the frames of a run has three members,
    in this order: the campaign, the ledger and the audit.  Their names
    are fixed by the run date and time, the ledger being
    sent_history_dd-mm-yyyy.csv, and are pairwise distinct, so no member
    replaces another. *)
Theorem build_final_zip_members {bytes : Type}
    (campaign_to_excel_bytes : list Campaign.row -> bool -> bytes)
    (audit_to_excel_bytes : list Audit.row -> bool -> bytes)
    (history_to_csv_bytes : list (History.row string) -> bytes)
    now source_name genesys_df history_df :
  let out := run now source_name genesys_df history_df in
  let archive :=
    build_final_zip bytes campaign_to_excel_bytes audit_to_excel_bytes
      history_to_csv_bytes (combined_history out) (audit_df out)
      (campaign_df out) (run_date out) (run_hhmm out) in
  archive.1 = "telesales_campaign_" ++ strftime_dmy now ++ ".zip"
  /\ map fst archive.2
     = [ "1_campaign_wa_" ++ strftime_dmy now ++ ".xlsx";
         "sent_history_" ++ strftime_dmy now ++ ".csv";
         "audit_campaign_" ++ strftime_dmy now ++ "-" ++ strftime_hhmm now
         ++ ".xlsx" ]
  /\ map snd archive.2
     = [ campaign_to_excel_bytes (campaign_df out) false;
         history_to_csv_bytes (combined_history out);
         audit_to_excel_bytes (audit_df out) true ]
  /\ NoDup (map fst archive.2).
Proof.
  intros out archive. subst out archive. unfold build_final_zip.
  cbn [run run_date run_hhmm fst snd map].
  rewrite strftime_dmy_lower.
  split; [done|]. split; [done|]. split; [done|].
  apply NoDup_cons. split.
  - intros Hin. apply elem_of_cons in Hin as [E|Hin]; [discriminate E|].
    apply elem_of_cons in Hin as [E|Hin]; [discriminate E|].
    by apply elem_of_nil in Hin.
  - apply NoDup_cons. split.
    + intros Hin. apply elem_of_cons in Hin as [E|Hin]; [discriminate E|].
      by apply elem_of_nil in Hin.
    + apply NoDup_cons. split; [apply not_elem_of_nil | apply NoDup_nil_2].
Qed.

(** ** Quoted column labels *)

Section Clean.

Variable p : ascii -> bool.

(** A text is clean when stripping leaves it as it is. *)
Lemma clean_lstrip l :
  rstrip_by p (lstrip_by p l) = l -> lstrip_by p l = l.
Proof. intros E. rewrite <- E at 1. by rewrite lstrip_rstrip_lstrip. Qed.

Lemma clean_rstrip l :
  rstrip_by p (lstrip_by p l) = l -> rstrip_by p l = l.
Proof. intros E. rewrite <- E at 1. by rewrite rstrip_idem. Qed.

Lemma lstrip_fixed_app l k :
  l <> [] -> lstrip_by p l = l -> lstrip_by p (l ++ k) = (l ++ k)%list.
Proof.
  unfold lstrip_by. destruct l as [|c l]; [done|]. intros _. simpl.
  destruct (p c) eqn:Hc; [|done].
  intros E. pose proof (drop_while_split p l) as (pre & E' & _).
  apply (f_equal length) in E. apply (f_equal length) in E'.
  rewrite length_app in E'. simpl in E. lia.
Qed.

Lemma lstrip_keep_app a l :
  Forall (fun c => p c = false) a -> lstrip_by p l = l ->
  lstrip_by p (a ++ l) = (a ++ l)%list.
Proof.
  unfold lstrip_by. intros Ha E. destruct Ha as [|c a Hc _]; [done|].
  simpl. by rewrite Hc.
Qed.

Lemma rstrip_rev l : rstrip_by p l = rev (lstrip_by p (rev l)).
Proof. reflexivity. Qed.

Lemma rstrip_fixed_rev l : rstrip_by p l = l <-> lstrip_by p (rev l) = rev l.
Proof.
  rewrite rstrip_rev. split; intros E.
  - rewrite <- E at 2. by rewrite rev_involutive.
  - by rewrite E, rev_involutive.
Qed.

(** Wrapping a clean, non-empty text in characters that are not stripped
    gives a clean text. *)
Lemma clean_wrapped a l b :
  Forall (fun c => p c = false) a ->
  Forall (fun c => p c = false) b ->
  l <> [] ->
  rstrip_by p (lstrip_by p l) = l ->
  rstrip_by p (lstrip_by p (a ++ l ++ b)) = (a ++ l ++ b)%list.
Proof.
  intros Ha Hb Hne E.
  assert (El : lstrip_by p (a ++ l ++ b) = (a ++ l ++ b)%list).
  { apply lstrip_keep_app; [done|].
    apply lstrip_fixed_app; [done | by apply clean_lstrip]. }
  rewrite El. apply rstrip_fixed_rev.
  rewrite !rev_app_distr, <- app_assoc.
  apply lstrip_keep_app; [by apply Forall_rev_iff|].
  apply lstrip_fixed_app.
  - intros Hr. apply Hne. by rewrite <- (rev_involutive l), Hr.
  - apply rstrip_fixed_rev. by apply clean_rstrip.
Qed.

End Clean.

(** X21. A label wrapped in double quotes, with blanks outside the
    quotes, is read as the label without the wrapping, when the label is
    not empty and neither begins nor ends with a blank. *)
Theorem header_quoted_labels columns columns' :
  Forall2 (fun c' c =>
             exists ws qs qs' ws',
               Forall (fun x => isspace x = true) ws
               /\ Forall (fun x => isspace x = true) ws'
               /\ Forall (fun x => x = double_quote) qs
               /\ Forall (fun x => x = double_quote) qs'
               /\ chars c' = (ws ++ qs ++ chars c ++ qs' ++ ws')%list
               /\ c <> "" /\ strip c = c)
    columns' columns ->
  normalize_columns columns' = normalize_columns columns.
Proof.
  induction 1 as [|c' c cs' cs
    (ws & qs & qs' & ws' & Hws & Hws' & Hqs & Hqs' & Ec & Hne & Hs) _ IH];
    simpl; [done|].
  rewrite IH. f_equal. f_equal.
  assert (Hnospace : forall l, Forall (fun x => x = double_quote) l ->
                               Forall (fun x => isspace x = false) l).
  { intros l Hl. eapply Forall_impl; [exact Hl|]. by intros x ->. }
  assert (Hquote : forall l, Forall (fun x => x = double_quote) l ->
                             Forall (fun x => Ascii.eqb double_quote x = true) l).
  { intros l Hl. eapply Forall_impl; [exact Hl|]. by intros x ->. }
  assert (Hc : chars c <> []) by (by destruct c).
  assert (E1 : strip c' = text (qs ++ chars c ++ qs')).
  { rewrite <- (text_chars c'), Ec. unfold strip.
    replace (ws ++ qs ++ chars c ++ qs' ++ ws')%list
      with (ws ++ (qs ++ chars c ++ qs') ++ ws')%list
      by (by rewrite <- !app_assoc).
    rewrite strip_by_padded by done.
    unfold strip_by. rewrite chars_text. f_equal.
    apply clean_wrapped; auto.
    apply (f_equal chars) in Hs. unfold strip, strip_by in Hs.
    by rewrite chars_text in Hs. }
  rewrite E1, Hs. unfold strip_char.
  rewrite strip_by_padded by auto. by rewrite text_chars.
Qed.

Lemma header_quoted_labels_witness :
  normalize_columns
    [String double_quote ("id" ++ String double_quote " ");
     "borrower_id"]
  = normalize_columns ["id"; "borrower_id"].
Proof.
  apply header_quoted_labels. constructor; [|constructor; [|constructor]].
  - exists [], [double_quote], [double_quote], (chars " ").
    repeat split; repeat constructor. discriminate.
  - exists [], [], [], [].
    repeat split; repeat constructor. discriminate.
Defined.
